(** * StickPlotItem: a shallow embedding of
    [pyqtgraph/graphicsItems/StickPlotItem.py]

    The class keeps a dict of options, four bounding corners and a cached
    picture.  Its methods are embedded as functions in a state-and-exception
    monad over a record holding these attributes.

    Modelling choices.
    - Option values are Python values: [None], a Python number, a numpy
      scalar, a string, a Python sequence of numbers, a one-dimensional
      ndarray.  Numbers are exact rationals (normalised by [Qred]); nothing
      below depends on rounding.  Division is Python 3's true division.
    - The options are a [gmap string pyval], a Python dict with string keys.
    - A raised exception aborts the method but keeps every mutation done so
      far, as in Python: a computation returns the new object together with
      either a value or the exception.
    - [QPicture] records the commands of the painter opened on it; the picture
      is the list of commands, with a flag set by [p.end()].
    - [fn.mkPen] and [getConfigOption] live in other modules of the package:
      the set of descriptors accepted by [mkPen] and the configured
      foreground are parameters of the development.
    - [update], [informViewBoundsChanged] and [prepareGeometryChange] belong
      to the scene graph and do not touch the attributes modelled here; the
      base class [GraphicsObject] is taken to define no attribute [_shape]. *)

From Stdlib Require Import QArith Qreduction.
From stdpp Require Import gmap strings list fin_maps.

Local Open Scope string_scope.
Local Open Scope list_scope.

(** ** Python values *)

Inductive pyval : Type :=
| VNone
| VPy (q : Q)            (* Python int or float *)
| VNp (q : Q)            (* numpy scalar *)
| VStr (s : string)      (* Python str *)
| VList (l : list Q)     (* Python sequence of numbers *)
| VArr (l : list Q).     (* one-dimensional ndarray *)

(** Where in the method an exception is raised. *)
Inductive site : Type :=
| AtOpts      (* self.opts['pen'], self.opts['pens']   lines 63-64 *)
| AtArith     (* y - height/2, y + height/2            lines 81-82 *)
| AtLen       (* len(x)                                lines 90, 93, 98 *)
| AtMinMax    (* .min() and .max()                     lines 91-95 *)
| AtMkPen     (* fn.mkPen                              lines 97, 100 *)
| AtIndex     (* pens[i], x[i], y0[i], y1[i]           lines 100-113 *)
| AtLine      (* QtCore.QLineF                         line 115 *)
| AtPlay      (* self.picture.play                     line 124 *)
| AtShape.    (* self._shape                           line 129 *)

Inductive exn : Type :=
| MissingData                 (* the Exception of line 87 *)
| KeyError (s : site)
| TypeError (s : site)
| AttributeError (s : site)
| IndexError (s : site)
| ValueError (s : site)
| PenError.                   (* whatever fn.mkPen raises on a bad descriptor *)

Inductive result (A : Type) : Type :=
| Ok (a : A)
| Raise (e : exn).
Arguments Ok {A} a.
Arguments Raise {A} e.

Definition rbind {A B} (r : result A) (k : A -> result B) : result B :=
  match r with
  | Ok a => k a
  | Raise e => Raise e
  end.

(** ** Numbers *)

Definition num_sub (a b : Q) : Q := Qred (a - b).
Definition num_add (a b : Q) : Q := Qred (a + b).
Definition num_half (a : Q) : Q := Qred (a / 2).
Definition num_min (a b : Q) : Q := if Qle_bool a b then a else b.
Definition num_max (a b : Q) : Q := if Qle_bool a b then b else a.

(** ** The numpy and Python primitives the method uses *)

(** [np.isscalar] *)
Definition isscalar (v : pyval) : bool :=
  match v with
  | VPy _ | VNp _ | VStr _ => true
  | VNone | VList _ | VArr _ => false
  end.

(** The local helper [asarray] of lines 69-72. *)
Definition asarray (v : pyval) : pyval :=
  match v with
  | VNone | VPy _ | VNp _ | VStr _ | VArr _ => v
  | VList l => VArr l
  end.

(** [len(v)] *)
Definition py_len (v : pyval) : result nat :=
  match v with
  | VArr l | VList l => Ok (length l)
  | VStr s => Ok (String.length s)
  | VNone | VPy _ | VNp _ => Raise (TypeError AtLen)
  end.

(** [v.min()] and [v.max()]: methods of ndarrays and numpy scalars only. *)
Definition reduce (f : Q -> Q -> Q) (v : pyval) : result Q :=
  match v with
  | VArr (a :: l) => Ok (fold_left f l a)
  | VArr [] => Raise (ValueError AtMinMax)
  | VNp q => Ok q
  | VNone | VPy _ | VStr _ | VList _ => Raise (AttributeError AtMinMax)
  end.

Definition np_min : pyval -> result Q := reduce num_min.
Definition np_max : pyval -> result Q := reduce num_max.

(** [v[i]] *)
Definition getitem (v : pyval) (i : nat) : result pyval :=
  match v with
  | VArr l =>
      match l !! i with Some q => Ok (VNp q) | None => Raise (IndexError AtIndex) end
  | VList l =>
      match l !! i with Some q => Ok (VPy q) | None => Raise (IndexError AtIndex) end
  | VStr s =>
      match String.get i s with
      | Some c => Ok (VStr (String c EmptyString))
      | None => Raise (IndexError AtIndex)
      end
  | VNp _ => Raise (IndexError AtIndex)
  | VNone | VPy _ => Raise (TypeError AtIndex)
  end.

(** [v / 2] *)
Definition np_half (v : pyval) : result pyval :=
  match v with
  | VPy q => Ok (VPy (num_half q))
  | VNp q => Ok (VNp (num_half q))
  | VArr l => Ok (VArr (num_half <$> l))
  | VNone | VStr _ | VList _ => Raise (TypeError AtArith)
  end.

(** Element-wise arithmetic with numpy's broadcasting: a scalar or an array
    of length one is stretched over the other operand; other length
    mismatches raise.  The operands come out of [asarray], so none is a
    Python sequence. *)
Definition broadcast (f : Q -> Q -> Q) (l1 l2 : list Q) : result (list Q) :=
  if decide (length l1 = length l2) then Ok (zip_with f l1 l2)
  else match l1, l2 with
       | [a], _ => Ok (f a <$> l2)
       | _, [b] => Ok ((fun a => f a b) <$> l1)
       | _, _ => Raise (ValueError AtArith)
       end.

Definition np_binop (f : Q -> Q -> Q) (v w : pyval) : result pyval :=
  match v, w with
  | VPy a, VPy b => Ok (VPy (f a b))
  | VPy a, VNp b | VNp a, VPy b | VNp a, VNp b => Ok (VNp (f a b))
  | VPy a, VArr l | VNp a, VArr l => Ok (VArr (f a <$> l))
  | VArr l, VPy b | VArr l, VNp b => Ok (VArr ((fun a => f a b) <$> l))
  | VArr l1, VArr l2 => rbind (broadcast f l1 l2) (fun l => Ok (VArr l))
  | _, _ => Raise (TypeError AtArith)
  end.

Definition np_sub : pyval -> pyval -> result pyval := np_binop num_sub.
Definition np_add : pyval -> pyval -> result pyval := np_binop num_add.

(** The number a Qt call reads from an argument. *)
Definition as_float (v : pyval) : result Q :=
  match v with
  | VPy q | VNp q => Ok q
  | _ => Raise (TypeError AtLine)
  end.

(** ** The object *)

(** [QtCore.QLineF(x1, y1, x2, y2)] *)
Record QLineF : Type := MkLine { lx1 : Q; ly1 : Q; lx2 : Q; ly2 : Q }.

(** [QtCore.QRectF] with its four constructor arguments, in order. *)
Record QRectF : Type := MkRect { r0 : Q; r1 : Q; r2 : Q; r3 : Q }.

(** What a painter records into the picture it is opened on. *)
Inductive cmd : Type :=
| SetPen (descr : pyval)
| DrawLine (l : QLineF).

Record QPicture : Type := MkPicture { commands : list cmd; ended : bool }.

(** The attributes of a [StickPlotItem].  [_shape] is [None] while the
    attribute does not exist.  [draws] is a ghost counter of the calls of
    [drawPicture]; no method reads it. *)
Record item : Type := MkItem {
  opts : gmap string pyval;
  boundingCorners : list Q;
  picture : option QPicture;
  _shape : option pyval;
  draws : nat
}.

Definition with_opts (o : gmap string pyval) (it : item) : item :=
  MkItem o (boundingCorners it) (picture it) (_shape it) (draws it).
Definition with_corners (c : list Q) (it : item) : item :=
  MkItem (opts it) c (picture it) (_shape it) (draws it).
Definition with_picture (p : option QPicture) (it : item) : item :=
  MkItem (opts it) (boundingCorners it) p (_shape it) (draws it).
Definition count_draw (it : item) : item :=
  MkItem (opts it) (boundingCorners it) (picture it) (_shape it) (S (draws it)).

(** ** Methods as computations: state passing with exceptions *)

Definition M (A : Type) : Type := item -> item * result A.

Definition ret {A} (a : A) : M A := fun it => (it, Ok a).
Definition raise {A} (e : exn) : M A := fun it => (it, Raise e).
Definition bind {A B} (m : M A) (k : A -> M B) : M B :=
  fun it =>
    match m it with
    | (it', Ok a) => k a it'
    | (it', Raise e) => (it', Raise e)
    end.
Definition lift {A} (r : result A) : M A := fun it => (it, r).
Definition get_self : M item := fun it => (it, Ok it).
Definition modify (f : item -> item) : M unit := fun it => (f it, Ok tt).

Notation "'let*' x ':=' m 'in' k" := (bind m (fun x => k))
  (at level 10, x pattern, m at level 100, k at level 200).
Notation "m ';;' k" := (bind m (fun _ => k))
  (at level 100, k at level 200, right associativity).

Definition when (b : bool) (m : M unit) : M unit := if b then m else ret tt.

(** [for i in range(...)]: the body runs on each index in turn and the first
    exception ends the loop. *)
Fixpoint for_each (l : list nat) (body : nat -> M unit) : M unit :=
  match l with
  | [] => ret tt
  | i :: l' => body i ;; for_each l' body
  end.

(** [self.opts[k]] and [self.opts.get(k)] *)
Definition opts_item (k : string) : M pyval :=
  fun it =>
    match opts it !! k with
    | Some v => (it, Ok v)
    | None => (it, Raise (KeyError AtOpts))
    end.
Definition opts_get (k : string) : M pyval :=
  fun it => (it, Ok (default VNone (opts it !! k))).

(** [self.boundingCorners[i] = v] and [self.boundingCorners[i]] *)
Definition set_corner (i : nat) (v : Q) : M unit :=
  fun it =>
    if decide (i < length (boundingCorners it))%nat
    then (with_corners (<[i:=v]> (boundingCorners it)) it, Ok tt)
    else (it, Raise (IndexError AtIndex)).
Definition corner (i : nat) : M Q :=
  fun it =>
    match boundingCorners it !! i with
    | Some v => (it, Ok v)
    | None => (it, Raise (IndexError AtIndex))
    end.

(** The painter [p] opened on [self.picture]. *)
Definition record (c : cmd) (p : QPicture) : QPicture :=
  MkPicture (commands p ++ [c]) (ended p).
Definition p_setPen (d : pyval) : M unit :=
  modify (fun it => with_picture (record (SetPen d) <$> picture it) it).
Definition p_drawLine (l : QLineF) : M unit :=
  modify (fun it => with_picture (record (DrawLine l) <$> picture it) it).
Definition p_end : M unit :=
  modify (fun it =>
    with_picture ((fun p => MkPicture (commands p) true) <$> picture it) it).

(** [QtCore.QLineF(a, b, c, d)] *)
Definition mkLine (a b c d : pyval) : result QLineF :=
  rbind (as_float a) (fun a =>
  rbind (as_float b) (fun b =>
  rbind (as_float c) (fun c =>
  rbind (as_float d) (fun d => Ok (MkLine a b c d))))).

Definition is_none (v : pyval) : bool :=
  match v with VNone => true | _ => false end.

(** Lines 80-87 of [drawPicture]: the lower and upper bounds computed from
    the converted options [y], [y0], [y1] and [height]. *)
Definition bounds (y y0 y1 height : pyval) : result (pyval * pyval) :=
  if negb (is_none y) && negb (is_none height) then
    rbind (np_half height) (fun h =>
    rbind (np_sub y h) (fun lo =>
    rbind (np_half height) (fun h' =>
    rbind (np_add y h') (fun up => Ok (lo, up)))))
  else if is_none y && negb (is_none height) then
    Ok (VPy 0, height)
  else if is_none y0 && is_none y1 then
    Raise MissingData
  else Ok (y0, y1).

(** One round of the loop of lines 98-115. *)
Definition row (v : pyval) (i : nat) : result pyval :=
  if isscalar v then Ok v else getitem v i.

Section StickPlotItem.

(** [getConfigOption('foreground')] *)
Variable foreground : pyval.
(** The descriptors [fn.mkPen] turns into a pen; it raises on the others. *)
Variable pen_ok : pyval -> bool.

Definition mkPen (d : pyval) : result pyval :=
  if pen_ok d then Ok d else Raise PenError.

Definition draw_row (pens x y0 y1 : pyval) (i : nat) : M unit :=
  when (negb (is_none pens))
    (let* d := lift (getitem pens i) in
     let* pn := lift (mkPen d) in
     p_setPen pn) ;;
  let* x0 := lift (row x i) in
  let* y_lo := lift (row y0 i) in
  let* y_up := lift (row y1 i) in
  let* ln := lift (mkLine x0 y_lo x0 y_up) in
  p_drawLine ln.

(** Lines 89-95 of [drawPicture]: the bounding corners. *)
Definition corners (x y0 y1 : pyval) : M unit :=
  modify (with_corners [0; 0; 0; 0]%Q) ;;
  let* n := lift (py_len x) in
  when (0 <? n)%nat
    (let* m := lift (np_min x) in set_corner 0 m ;;
     let* m := lift (np_max x) in set_corner 0 m) ;;
  let* n := lift (py_len x) in
  when (0 <? n)%nat
    (let* m := lift (np_min y0) in set_corner 1 m ;;
     let* m := lift (np_max y1) in set_corner 3 m).

(** Lines 97-117 of [drawPicture]: the segments. *)
Definition sticks (pen pens x y0 y1 : pyval) : M unit :=
  let* pn := lift (mkPen pen) in
  p_setPen pn ;;
  let* n := lift (py_len x) in
  for_each (seq 0 n) (draw_row pens x y0 y1) ;;
  p_end.

(** Lines 89-117 of [drawPicture]. *)
Definition render (pen pens x y0 y1 : pyval) : M unit :=
  corners x y0 y1 ;;
  sticks pen pens x y0 y1.

Definition drawPicture : M unit :=
  modify count_draw ;;
  modify (with_picture (Some (MkPicture [] false))) ;;
  let* pen := opts_item "pen" in
  let* pens := opts_item "pens" in
  let pen := if is_none pen && is_none pens then foreground else pen in
  let* x := opts_get "x" in
  let x := asarray x in
  let* y := opts_get "y" in
  let y := asarray y in
  let* y0 := opts_get "y0" in
  let y0 := asarray y0 in
  let* y1 := opts_get "y1" in
  let y1 := asarray y1 in
  let* height := opts_get "height" in
  let height := asarray height in
  let* (y0, y1) := lift (bounds y y0 y1 height) in
  render pen pens x y0 y1.

Definition setOpts (kw : gmap string pyval) : M unit :=
  modify (fun it => with_opts (kw ∪ opts it) it) ;;
  modify (with_picture None).

Definition paint : M QPicture :=
  let* self := get_self in
  when (bool_decide (picture self = None)) drawPicture ;;
  let* self := get_self in
  match picture self with
  | Some p => ret p
  | None => raise (AttributeError AtPlay)
  end.

Definition shape : M pyval :=
  let* self := get_self in
  when (bool_decide (picture self = None)) drawPicture ;;
  let* self := get_self in
  match _shape self with
  | Some v => ret v
  | None => raise (AttributeError AtShape)
  end.

Definition setData (kargs : gmap string pyval) : M unit :=
  let name := VNone in
  let x := VNone in
  let y := VNone in
  let y0 := VNone in
  let y1 := VNone in
  let height := VNone in
  let pen := VNone in
  let pens := VNone in
  let x := match kargs !! "x" with Some v => v | None => x end in
  let height := match kargs !! "y" with Some v => v | None => height end in
  let height := match kargs !! "y0" with Some v => v | None => height end in
  let height := match kargs !! "y1" with Some v => v | None => height end in
  let height := match kargs !! "height" with Some v => v | None => height end in
  let height := match kargs !! "pen" with Some v => v | None => height end in
  setOpts (<["name":=name]> (<["x":=x]> (<["y":=y]> (<["y0":=y0]> (<["y1":=y1]>
          (<["height":=height]> (<["pen":=pen]> (<["pens":=pens]> ∅)))))))).

Definition name : M pyval := opts_get "name".

Definition boundingRect : M QRectF :=
  let* self := get_self in
  when (bool_decide (picture self = None)) drawPicture ;;
  let* a := corner 0 in
  let* b := corner 1 in
  let* c := corner 2 in
  let* d := corner 3 in
  ret (MkRect a b c d).

(** The attributes set by the body of [__init__] before it calls [setOpts]. *)
Definition fresh : item :=
  MkItem
    (<["name":=VNone]> (<["x":=VNone]> (<["y":=VNone]> (<["y0":=VNone]>
     (<["y1":=VNone]> (<["height":=VNone]> (<["pen":=VNone]>
     (<["pens":=VNone]> ∅))))))))
    [0; 0; 0; 0]%Q None None 0.

Definition init (kw : gmap string pyval) : item * result unit := setOpts kw fresh.

(** ** Vocabulary of the properties *)

(** The object after a method has run, and what the method returned. *)
Definition after {A} (m : M A) (it : item) : item := fst (m it).
Definition outcome {A} (m : M A) (it : item) : result A := snd (m it).

(** [self.opts.get(k)] as a value. *)
Definition opt (it : item) (k : string) : pyval := default VNone (opts it !! k).

(** The segments recorded in a list of commands, in drawing order. *)
Fixpoint segments (cs : list cmd) : list QLineF :=
  match cs with
  | [] => []
  | DrawLine l :: cs' => l :: segments cs'
  | SetPen _ :: cs' => segments cs'
  end.

(** The segments of the cached picture. *)
Definition drawn (it : item) : list QLineF :=
  match picture it with
  | Some p => segments (commands p)
  | None => []
  end.

(** The segment the loop draws for row [i]. *)
Definition segment_at (x y0 y1 : pyval) (i : nat) : result QLineF :=
  rbind (row x i) (fun x0 =>
  rbind (row y0 i) (fun y_lo =>
  rbind (row y1 i) (fun y_up => mkLine x0 y_lo x0 y_up))).

(** The bounds [drawPicture] computes in the object [it]. *)
Definition bounds_of (it : item) : result (pyval * pyval) :=
  bounds (asarray (opt it "y")) (asarray (opt it "y0"))
         (asarray (opt it "y1")) (asarray (opt it "height")).

Definition is_number (v : pyval) : bool :=
  match v with VPy _ | VNp _ => true | _ => false end.

(** The combination of data the docstring and the message of line 87 ask
    for: [x] with ([y] and [height]), or [height] alone, or [y0] and [y1]. *)
Definition combination_ok (it : item) : bool :=
  negb (is_none (opt it "x")) &&
  (negb (is_none (opt it "y")) && negb (is_none (opt it "height"))
   || negb (is_none (opt it "height"))
   || negb (is_none (opt it "y0")) && negb (is_none (opt it "y1"))).

(** The value of the first key of [ks] present in [kargs]. *)
Fixpoint first_present (ks : list string) (kargs : gmap string pyval) : pyval :=
  match ks with
  | [] => VNone
  | k :: ks' =>
      match kargs !! k with
      | Some v => v
      | None => first_present ks' kargs
      end
  end.

(** The objects a program can hold: built by [__init__] and then used
    through the methods, whether they return or raise. *)
Inductive reachable : item -> Prop :=
| reach_init kw : reachable (fst (init kw))
| reach_setOpts kw it : reachable it -> reachable (after (setOpts kw) it)
| reach_setData kargs it : reachable it -> reachable (after (setData kargs) it)
| reach_drawPicture it : reachable it -> reachable (after drawPicture it)
| reach_paint it : reachable it -> reachable (after paint it)
| reach_shape it : reachable it -> reachable (after shape it)
| reach_name it : reachable it -> reachable (after name it)
| reach_boundingRect it : reachable it -> reachable (after boundingRect it).

(** A method run from an object satisfying [P] ends, by return or by
    exception, in an object and with an outcome satisfying [Q]. *)
Definition hoare {A} (P : item -> Prop) (m : M A)
    (Q : result A -> item -> Prop) : Prop :=
  forall it, P it -> Q (outcome m it) (after m it).

(** [I] holds after every run started where it holds. *)
Definition keeps {A} (I : item -> Prop) (m : M A) : Prop :=
  hoare I m (fun _ => I).

(** The first [k] rows have been drawn, in order, and nothing else. *)
Definition rows_drawn (x y0 y1 : pyval) (k : nat) (it : item) : Prop :=
  is_Some (picture it) /\
  Forall2 (fun i ln => segment_at x y0 y1 i = Ok ln) (seq 0 k) (drawn it).


(** [m] never raises [e]. *)
Definition never_raises {A} (e : exn) (m : M A) : Prop :=
  hoare (fun _ => True) m (fun r _ => r <> Raise e).

(** ** Concrete objects for the examples *)

(** The package's default for the foreground option, and an [fn.mkPen]
    that accepts every descriptor. *)
Definition default_foreground : pyval := VStr "d".
Definition any_pen (d : pyval) : bool := true.

(** Keyword arguments written as a list of pairs. *)
Definition kwargs (l : list (string * pyval)) : gmap string pyval := list_to_map l.

(** The call of the class docstring, [x=range(5), height=[1,5,2,4,3]]. *)
Definition docstring_example : gmap string pyval :=
  kwargs [("x", VList [0; 1; 2; 3; 4]%Q); ("height", VList [1; 5; 2; 4; 3]%Q)].

(** Two sticks at [x = 1, 2] given by arrays of lower and upper bounds. *)
Definition two_sticks : gmap string pyval :=
  kwargs [("x", VArr [1; 2]%Q); ("y0", VArr [0; 0]%Q); ("y1", VArr [3; 4]%Q)].

(** The same two sticks given by centres and heights. *)
Definition two_centred_sticks : gmap string pyval :=
  kwargs [("x", VList [0; 1]%Q); ("y", VList [1; 5]%Q); ("height", VList [1; 5]%Q)].

(** ** Vocabulary of the further properties *)

(** The keys [__init__] puts into the options. *)
Definition option_keys : list string :=
  ["name"; "x"; "y"; "y0"; "y1"; "height"; "pen"; "pens"].

(** The shape [__init__] gives the attributes: every option key is there
    and there are four bounding corners. *)
Definition well_formed (it : item) : Prop :=
  length (boundingCorners it) = 4%nat /\
  Forall (fun k => is_Some (opts it !! k)) option_keys.

(** The vertical segments over the abscissas [xs] from the lower bounds
    [los] to the upper bounds [ups], row by row. *)
Fixpoint vertical_segments (xs los ups : list Q) : list QLineF :=
  match xs, los, ups with
  | x :: xs', lo :: los', up :: ups' =>
      MkLine x lo x up :: vertical_segments xs' los' ups'
  | _, _, _ => []
  end.

(** The pen [drawPicture] starts with: the foreground when neither [pen]
    nor [pens] is given. *)
Definition first_pen (it : item) : pyval :=
  if is_none (opt it "pen") && is_none (opt it "pens") then foreground
  else opt it "pen".

(** Five heights without abscissas, as [setData] receives them. *)
Definition heights_only : gmap string pyval :=
  kwargs [("height", VList [1; 5; 2; 4; 3]%Q)].

(** No sticks at all: empty [x] and empty [height]. *)
Definition no_sticks : gmap string pyval :=
  kwargs [("x", VList []); ("height", VList [])].

(** A name for the item. *)
Definition named : gmap string pyval := kwargs [("name", VStr "spectrum")].



(** What the loop records when every row has its own pen: the pen of the
    row, then its segment, for as long as there are pens. *)
Fixpoint penned_segments (ps xs los ups : list Q) : list cmd :=
  match ps, xs, los, ups with
  | d :: ps', x :: xs', lo :: los', up :: ups' =>
      SetPen (VPy d) :: DrawLine (MkLine x lo x up) ::
      penned_segments ps' xs' los' ups'
  | _, _, _, _ => []
  end.

(** The two sticks with a single pen for the two rows. *)
Definition two_sticks_one_pen : gmap string pyval :=
  kwargs [("x", VArr [1; 2]%Q); ("y0", VArr [0; 0]%Q); ("y1", VArr [3; 4]%Q);
          ("pens", VList [7]%Q)].

(** The dict [setData] hands to [setOpts] (lines 138-167), in closed form;
    [setData_run] relates it to [setData]. *)
Definition new_options (kargs : gmap string pyval) : gmap string pyval :=
  let x := match kargs !! "x" with Some v => v | None => VNone end in
  let height := first_present ["pen"; "height"; "y1"; "y0"; "y"] kargs in
  <["name":=VNone]> (<["x":=x]> (<["y":=VNone]> (<["y0":=VNone]> (<["y1":=VNone]>
    (<["height":=height]> (<["pen":=VNone]> (<["pens":=VNone]> ∅))))))).

(** ** Rules for reasoning about computations *)

Lemma bind_run {A B} (m : M A) (k : A -> M B) it :
  bind m k it =
  match outcome m it with
  | Ok a => k a (after m it)
  | Raise e => (after m it, Raise e)
  end.
Proof. unfold bind, outcome, after. by destruct (m it) as [it' [a|e]]. Qed.

Lemma hoare_conseq {A} (P P' : item -> Prop) (Q Q' : result A -> item -> Prop) m :
  hoare P' m Q' -> (forall it, P it -> P' it) ->
  (forall r it, Q' r it -> Q r it) -> hoare P m Q.
Proof. intros H HP HQ it Hit. apply HQ, H, HP, Hit. Qed.

Lemma hoare_bind {A B} P (Q' : result A -> item -> Prop) Q (m : M A) (k : A -> M B) :
  hoare P m Q' ->
  (forall a, hoare (Q' (Ok a)) (k a) Q) ->
  (forall e it, Q' (Raise e) it -> Q (Raise e) it) ->
  hoare P (bind m k) Q.
Proof.
  intros Hm Hk He it Hit. specialize (Hm it Hit).
  unfold outcome, after in *. rewrite bind_run. unfold outcome, after.
  destruct (m it) as [it' [a|e]]; simpl in *.
  - apply (Hk a it' Hm).
  - by apply He.
Qed.

Lemma keeps_bind {A B} I (m : M A) (k : A -> M B) :
  keeps I m -> (forall a, keeps I (k a)) -> keeps I (bind m k).
Proof. intros Hm Hk. eapply hoare_bind; [exact Hm | exact Hk | done]. Qed.

Lemma keeps_ret {A} I (a : A) : keeps I (ret a).
Proof. by intros it. Qed.

Lemma keeps_raise {A} I (e : exn) : keeps I (@raise A e).
Proof. by intros it. Qed.

Lemma keeps_lift {A} I (r : result A) : keeps I (lift r).
Proof. by intros it. Qed.

Lemma keeps_get_self I : keeps I get_self.
Proof. by intros it. Qed.

Lemma keeps_opts_item I k : keeps I (opts_item k).
Proof. intros it Hit. unfold after, opts_item. by destruct (opts it !! k). Qed.

Lemma keeps_opts_get I k : keeps I (opts_get k).
Proof. by intros it. Qed.

Lemma keeps_corner I i : keeps I (corner i).
Proof. intros it Hit. unfold after, corner. by destruct (boundingCorners it !! i). Qed.

Lemma keeps_modify (I : item -> Prop) f :
  (forall it, I it -> I (f it)) -> keeps I (modify f).
Proof. intros Hf it Hit. by apply Hf. Qed.

Lemma keeps_set_corner (I : item -> Prop) i v :
  (forall c it, I it -> I (with_corners c it)) -> keeps I (set_corner i v).
Proof.
  intros Hf it Hit. unfold after, set_corner.
  destruct (decide _); simpl; [by apply Hf | done].
Qed.

Lemma keeps_when I b (m : M unit) : keeps I m -> keeps I (when b m).
Proof. intros Hm. destruct b; [exact Hm | apply keeps_ret]. Qed.

Lemma keeps_for_each I l body :
  (forall i, keeps I (body i)) -> keeps I (for_each l body).
Proof.
  intros Hb. induction l as [|i l IH]; simpl.
  - apply keeps_ret.
  - apply keeps_bind; [apply Hb | intros _; exact IH].
Qed.

(** An invariant that does not look at the corners nor at the picture's
    pen changes and end flag survives every step of [render] but the
    drawing of a segment. *)
Lemma keeps_p_setPen (I : item -> Prop) d :
  (forall p it, I it -> I (with_picture p it)) -> keeps I (p_setPen d).
Proof. intros Hf. apply keeps_modify. intros it. apply Hf. Qed.

Lemma keeps_p_drawLine (I : item -> Prop) ln :
  (forall p it, I it -> I (with_picture p it)) -> keeps I (p_drawLine ln).
Proof. intros Hf. apply keeps_modify. intros it. apply Hf. Qed.

Lemma keeps_p_end (I : item -> Prop) :
  (forall p it, I it -> I (with_picture p it)) -> keeps I p_end.
Proof. intros Hf. apply keeps_modify. intros it. apply Hf. Qed.

Lemma keeps_draw_row (I : item -> Prop) pens x y0 y1 i :
  (forall p it, I it -> I (with_picture p it)) ->
  keeps I (draw_row pens x y0 y1 i).
Proof.
  intros Hp. unfold draw_row.
  repeat first
    [ apply keeps_bind; [|intros ?]
    | apply keeps_when
    | apply keeps_lift
    | apply keeps_p_setPen, Hp
    | apply keeps_p_drawLine, Hp ].
Qed.

Lemma keeps_corners (I : item -> Prop) x y0 y1 :
  (forall c it, I it -> I (with_corners c it)) ->
  keeps I (corners x y0 y1).
Proof.
  intros Hc. unfold corners.
  repeat first
    [ apply keeps_bind; [|intros ?]
    | apply keeps_when
    | apply keeps_lift
    | apply keeps_modify, Hc
    | apply keeps_set_corner, Hc ].
Qed.

Lemma keeps_sticks (I : item -> Prop) pen pens x y0 y1 :
  (forall p it, I it -> I (with_picture p it)) ->
  keeps I (sticks pen pens x y0 y1).
Proof.
  intros Hp. unfold sticks.
  repeat first
    [ apply keeps_bind; [|intros ?]
    | apply keeps_lift
    | apply keeps_p_setPen, Hp
    | apply keeps_p_end, Hp
    | apply keeps_for_each; intros ?; apply keeps_draw_row, Hp ].
Qed.

Lemma keeps_render (I : item -> Prop) pen pens x y0 y1 :
  (forall p it, I it -> I (with_picture p it)) ->
  (forall c it, I it -> I (with_corners c it)) ->
  keeps I (render pen pens x y0 y1).
Proof.
  intros Hp Hc. apply keeps_bind; [by apply keeps_corners|].
  intros _. by apply keeps_sticks.
Qed.

Lemma drawPicture_eq it :
  drawPicture it =
  let it0 := with_picture (Some (MkPicture [] false)) (count_draw it) in
  match opts it !! "pen", opts it !! "pens" with
  | Some pen, Some pens =>
      match bounds_of it with
      | Ok (y0, y1) =>
          render (if is_none pen && is_none pens then foreground else pen) pens
                 (asarray (opt it "x")) y0 y1 it0
      | Raise e => (it0, Raise e)
      end
  | _, _ => (it0, Raise (KeyError AtOpts))
  end.
Proof.
  unfold drawPicture, bind, opts_item, opts_get, lift, modify, bounds_of, opt,
    with_picture, count_draw. simpl.
  destruct (opts it !! "pen") as [pen|]; simpl; [|done].
  destruct (opts it !! "pens") as [pens|]; simpl; [|done].
  destruct (bounds _ _ _ _) as [[y0 y1]|e]; done.
Qed.

(** [drawPicture] counts one call and leaves alone whatever does not depend
    on the corners, the picture and the counter. *)
Lemma drawPicture_frame (I : item -> Prop) :
  (forall p it, I it -> I (with_picture p it)) ->
  (forall c it, I it -> I (with_corners c it)) ->
  (forall it, I it -> I (count_draw it)) ->
  keeps I drawPicture.
Proof.
  intros Hp Hc Hd it Hit. unfold after. rewrite drawPicture_eq. simpl.
  assert (I (with_picture (Some (MkPicture [] false)) (count_draw it))) as H0
    by (apply Hp, Hd, Hit).
  destruct (opts it !! "pen") as [pen|]; [|done].
  destruct (opts it !! "pens") as [pens|]; [|done].
  destruct (bounds_of it) as [[y0 y1]|e]; [|done].
  by apply (keeps_render I _ _ _ _ _ Hp Hc).
Qed.

(** ** The segments of the picture *)

Lemma segments_app cs cs' : segments (cs ++ cs') = segments cs ++ segments cs'.
Proof.
  induction cs as [|[d|l] cs IH]; simpl; [done | done | by rewrite IH].
Qed.

Lemma hoare_after_keeps {A B} I (Q : result B -> item -> Prop) (m : M A) (k : A -> M B) :
  keeps I m -> (forall a, hoare I (k a) Q) ->
  (forall e it, I it -> Q (Raise e) it) ->
  hoare I (bind m k) Q.
Proof. intros Hm Hk He. eapply hoare_bind; [exact Hm | exact Hk | exact He]. Qed.

Lemma rows_drawn_setPen x y0 y1 k d :
  keeps (rows_drawn x y0 y1 k) (p_setPen d).
Proof.
  apply keeps_modify. intros it [[p Hp] Hrows]. unfold rows_drawn, drawn in *.
  rewrite Hp in *. simpl. split; [by eexists|].
  rewrite segments_app. simpl. by rewrite app_nil_r.
Qed.

Lemma rows_drawn_end x y0 y1 k :
  keeps (rows_drawn x y0 y1 k) p_end.
Proof.
  apply keeps_modify. intros it [[p Hp] Hrows]. unfold rows_drawn, drawn in *.
  rewrite Hp in *. simpl. split; [by eexists | done].
Qed.

Lemma draw_row_rows pens x y0 y1 k :
  hoare (rows_drawn x y0 y1 k) (draw_row pens x y0 y1 k)
    (fun r it =>
       match r with
       | Ok _ => rows_drawn x y0 y1 (S k) it
       | Raise _ => rows_drawn x y0 y1 k it
       end).
Proof.
  unfold draw_row. apply hoare_after_keeps.
  - apply keeps_when.
    repeat (apply keeps_bind; [apply keeps_lift | intros ?]).
    apply rows_drawn_setPen.
  - intros _ it [[p Hp] Hrows].
    unfold outcome, after, bind, lift, p_drawLine, modify. simpl.
    destruct (row x k) as [x0|e] eqn:Hx; simpl; [|by split; [eexists|]].
    destruct (row y0 k) as [y_lo|e] eqn:Hlo; simpl; [|by split; [eexists|]].
    destruct (row y1 k) as [y_up|e] eqn:Hup; simpl; [|by split; [eexists|]].
    destruct (mkLine x0 y_lo x0 y_up) as [ln|e] eqn:Hln; simpl;
      [|by split; [eexists|]].
    unfold rows_drawn, drawn in *. rewrite Hp in *. rewrite seq_S.
    cbn [picture with_picture fmap option_fmap option_map record commands].
    split; [by eexists|].
    rewrite segments_app. apply Forall2_app; [done|]. simpl.
    constructor; [|constructor].
    unfold segment_at. by rewrite Hx, Hlo, Hup.
  - done.
Qed.

Lemma loop_rows pens x y0 y1 m : forall k,
  hoare (rows_drawn x y0 y1 k)
    (for_each (seq k m) (draw_row pens x y0 y1))
    (fun r it =>
       match r with
       | Ok _ => rows_drawn x y0 y1 (k + m) it
       | Raise _ => exists j, rows_drawn x y0 y1 j it
       end).
Proof.
  induction m as [|m IH]; intros k; simpl.
  - intros it Hit. simpl. by rewrite Nat.add_0_r.
  - eapply hoare_bind; [apply draw_row_rows | |].
    + intros u. eapply hoare_conseq; [apply (IH (S k)) | done |].
      intros [u'|e] it; simpl; [|done]. by rewrite Nat.add_succ_r.
    + intros e it Hit. by exists k.
Qed.

Lemma loop_end_rows pens x y0 y1 n :
  hoare (rows_drawn x y0 y1 0)
    (for_each (seq 0 n) (draw_row pens x y0 y1) ;; p_end)
    (fun r it =>
       match r with
       | Ok _ => rows_drawn x y0 y1 n it
       | Raise _ => exists j, rows_drawn x y0 y1 j it
       end).
Proof.
  eapply hoare_bind; [apply (loop_rows pens x y0 y1 n 0) | |].
  - intros u. eapply hoare_conseq; [apply (rows_drawn_end x y0 y1 n) | done |].
    intros [u'|e] it Hit; [done | by exists n].
  - done.
Qed.

(** Whatever [render] does, the segments in the picture are those of the
    rows [0 .. j-1], in order, and of all rows when it returns. *)
Lemma render_rows pen pens x y0 y1 :
  hoare (rows_drawn x y0 y1 0) (render pen pens x y0 y1)
    (fun r it =>
       exists j, rows_drawn x y0 y1 j it /\
                 (r = Ok tt -> py_len x = Ok j)).
Proof.
  assert (forall e it, rows_drawn x y0 y1 0 it ->
    exists j, rows_drawn x y0 y1 j it /\ (Raise (A:=unit) e = Ok tt -> py_len x = Ok j))
    as Hexc by (intros e it H; exists 0%nat; split; [done | discriminate]).
  apply hoare_after_keeps; [by apply keeps_corners | intros _ | exact Hexc].
  unfold sticks.
  apply hoare_after_keeps; [apply keeps_lift | intros pn | exact Hexc].
  apply hoare_after_keeps; [apply rows_drawn_setPen | intros _ | exact Hexc].
  eapply (hoare_bind _ (fun r it => rows_drawn x y0 y1 0 it /\ r = py_len x)).
  - intros it Hit. by split.
  - intros n it [Hit Hn].
    pose proof (loop_end_rows pens x y0 y1 n it Hit) as Hloop.
    destruct (outcome _ it) as [u|e].
    + exists n. split; [done | by intros _].
    + destruct Hloop as [j Hj]. exists j. split; [done | discriminate].
  - intros e it [Hit _]. by apply Hexc.
Qed.

Lemma drawPicture_rows it :
  is_Some (picture (after drawPicture it)) /\
  exists j, Forall2 (fun i ln =>
              exists y0 y1, bounds_of it = Ok (y0, y1) /\
                segment_at (asarray (opt it "x")) y0 y1 i = Ok ln)
            (seq 0 j) (drawn (after drawPicture it)) /\
            (outcome drawPicture it = Ok tt ->
             py_len (asarray (opt it "x")) = Ok j).
Proof.
  unfold after, outcome. rewrite drawPicture_eq. simpl.
  destruct (opts it !! "pen") as [pen|];
    [|split; [by eexists | exists 0%nat; split; [constructor | discriminate]]].
  destruct (opts it !! "pens") as [pens|];
    [|split; [by eexists | exists 0%nat; split; [constructor | discriminate]]].
  destruct (bounds_of it) as [[y0 y1]|e];
    [|split; [by eexists | exists 0%nat; split; [constructor | discriminate]]].
  destruct (render_rows (if is_none pen && is_none pens then foreground else pen)
              pens (asarray (opt it "x")) y0 y1
              (with_picture (Some (MkPicture [] false)) (count_draw it)))
    as [j [[Hpic Hrows] Hlen]].
  { split; [by eexists | constructor]. }
  split; [exact Hpic|]. exists j. split; [|exact Hlen].
  eapply Forall2_impl; [exact Hrows|]. intros i ln H. by exists y0, y1.
Qed.


(** ** The methods outside [drawPicture] *)

Lemma setOpts_run kw it :
  setOpts kw it = (with_picture None (with_opts (kw ∪ opts it) it), Ok tt).
Proof. done. Qed.

Lemma drawPicture_counts it : draws (after drawPicture it) = S (draws it).
Proof.
  unfold after. rewrite drawPicture_eq. simpl.
  destruct (opts it !! "pen") as [pen|]; [|done].
  destruct (opts it !! "pens") as [pens|]; [|done].
  destruct (bounds_of it) as [[y0 y1]|e]; [|done].
  by apply (keeps_render (fun it' => draws it' = S (draws it))).
Qed.

(** A method that starts with [if self.picture is None: self.drawPicture()]
    runs [drawPicture] first when nothing is cached and goes straight to
    its own work otherwise. *)
Lemma lazy_run {A} (k : M A) it :
  (let* self := get_self in
   when (bool_decide (picture self = None)) drawPicture ;; k) it =
  match picture it with
  | Some _ => k it
  | None => (drawPicture ;; k) it
  end.
Proof.
  unfold bind at 1, get_self. destruct (picture it) as [p|] eqn:Hp.
  - rewrite bool_decide_eq_false_2 by done. done.
  - rewrite bool_decide_eq_true_2 by done. done.
Qed.

(** C8: a call of [setOpts] with keyword arguments changes no option whose key is not named in the
    call: such a key keeps its previous value, or stays absent. *)
Theorem setOpts_frame kw it (k : string) :
  kw !! k = None ->
  opts (after (setOpts kw) it) !! k = opts it !! k.
Proof.
  intros Hk. unfold after. rewrite setOpts_run. simpl.
  by apply lookup_union_r.
Qed.

Lemma setOpts_named kw it (k : string) v :
  kw !! k = Some v ->
  opts (after (setOpts kw) it) !! k = Some v.
Proof.
  intros Hk. unfold after. rewrite setOpts_run. simpl.
  by apply lookup_union_Some_l.
Qed.

(** C2: after [setData] called with keyword arguments [kargs] the option [x] is [kargs['x']] when that
    key is present (and [None] otherwise); [height] holds the value of the
    last present key among [y], [y0], [y1], [height], [pen], that is of the
    first present one in the order [pen], [height], [y1], [y0], [y]; and
    [name], [y], [y0], [y1], [pen] and [pens] are [None] whatever they were
    before. *)
Theorem setData_options kargs it :
  let o := opts (after (setData kargs) it) in
  o !! "x" = Some (default VNone (kargs !! "x")) /\
  o !! "height" = Some (first_present ["pen"; "height"; "y1"; "y0"; "y"] kargs) /\
  o !! "name" = Some VNone /\
  o !! "y" = Some VNone /\
  o !! "y0" = Some VNone /\
  o !! "y1" = Some VNone /\
  o !! "pen" = Some VNone /\
  o !! "pens" = Some VNone.
Proof.
  simpl. unfold setData.
  repeat split; (apply setOpts_named; simplify_map_eq; simpl;
                 repeat case_match; done).
Qed.

(** C3: [setOpts] always leaves the picture cache empty; [paint] and
    [boundingRect] call [drawPicture] once when the cache is empty and not
    at all otherwise; and after either of them the cache holds a picture. *)
Theorem cache_invalidated_and_rebuilt_lazily :
  (forall kw it, picture (after (setOpts kw) it) = None) /\
  (forall it, draws (after paint it) =
              match picture it with Some _ => draws it | None => S (draws it) end) /\
  (forall it, draws (after boundingRect it) =
              match picture it with Some _ => draws it | None => S (draws it) end) /\
  (forall it, picture it = None ->
              after paint it = after drawPicture it /\
              is_Some (picture (after paint it))) /\
  (forall it, picture it = None ->
              after boundingRect it = after drawPicture it /\
              is_Some (picture (after boundingRect it))).
Proof.
  assert (forall it, picture it = None -> after paint it = after drawPicture it)
    as Hpaint.
  { intros it Hnone. unfold after, paint. rewrite lazy_run, Hnone.
    rewrite bind_run. destruct (outcome drawPicture it); [|done].
    unfold bind, get_self. fold (after drawPicture it).
    by destruct (picture (after drawPicture it)). }
  assert (forall it, picture it = None ->
            after boundingRect it = after drawPicture it) as Hrect.
  { intros it Hnone. unfold after, boundingRect. rewrite lazy_run, Hnone.
    rewrite bind_run. destruct (outcome drawPicture it); [|done].
    fold (after drawPicture it). unfold bind, corner, ret.
    by repeat destruct (boundingCorners _ !! _). }
  assert (forall it p, picture it = Some p -> after paint it = it) as Hpaint'.
  { intros it p Hp. unfold after, paint. rewrite lazy_run, Hp.
    unfold bind, get_self. by rewrite Hp. }
  assert (forall it p, picture it = Some p -> after boundingRect it = it) as Hrect'.
  { intros it p Hp. unfold after, boundingRect. rewrite lazy_run, Hp.
    unfold bind, corner, ret. by repeat destruct (boundingCorners _ !! _). }
  repeat split.
  - intros it. destruct (picture it) as [p|] eqn:Hp.
    + by rewrite (Hpaint' it p).
    + rewrite Hpaint by done. apply drawPicture_counts.
  - intros it. destruct (picture it) as [p|] eqn:Hp.
    + by rewrite (Hrect' it p).
    + rewrite Hrect by done. apply drawPicture_counts.
  - by apply Hpaint.
  - rewrite Hpaint by done. apply drawPicture_rows.
  - by apply Hrect.
  - rewrite Hrect by done. apply drawPicture_rows.
Qed.

Lemma segment_at_inv x y0 y1 i ln :
  segment_at x y0 y1 i = Ok ln ->
  lx1 ln = lx2 ln /\
  exists xv lo up,
    row x i = Ok xv /\ as_float xv = Ok (lx1 ln) /\
    row y0 i = Ok lo /\ as_float lo = Ok (ly1 ln) /\
    row y1 i = Ok up /\ as_float up = Ok (ly2 ln).
Proof.
  unfold segment_at, mkLine, rbind. intros H.
  destruct (row x i) as [xv|]; [|done].
  destruct (row y0 i) as [lo|]; [|done].
  destruct (row y1 i) as [up|]; [|done].
  destruct (as_float xv) as [a|] eqn:Ha; [|done].
  destruct (as_float lo) as [b|] eqn:Hb; [|done].
  destruct (as_float up) as [c|] eqn:Hc; [|done].
  injection H as <-. simpl. split; [done|].
  exists xv, lo, up. repeat split; done.
Qed.

(** C5: the [i]-th segment drawn by [drawPicture] is vertical: both end
    points have the abscissa of row [i] of [x] ([x[i]], or [x] itself were it
    a scalar), and it runs from row [i] of the lower bound to row [i] of the
    upper bound, the bounds being those derived from the options. *)
Theorem drawn_segment_vertical it i ln :
  drawn (after drawPicture it) !! i = Some ln ->
  lx1 ln = lx2 ln /\
  exists y0 y1 xv lo up,
    bounds_of it = Ok (y0, y1) /\
    row (asarray (opt it "x")) i = Ok xv /\ as_float xv = Ok (lx1 ln) /\
    row y0 i = Ok lo /\ as_float lo = Ok (ly1 ln) /\
    row y1 i = Ok up /\ as_float up = Ok (ly2 ln).
Proof.
  intros Hln. destruct (drawPicture_rows it) as [_ [j [Hrows _]]].
  destruct (Forall2_lookup_r _ _ _ _ _ Hrows Hln) as [i' [Hi' [y0 [y1 [Hb Hseg]]]]].
  apply lookup_seq in Hi' as [-> _]. simpl in Hseg.
  destruct (segment_at_inv _ _ _ _ _ Hseg) as [Hv [xv [lo [up H]]]].
  split; [exact Hv|]. by exists y0, y1, xv, lo, up.
Qed.


(** ** Which exceptions [drawPicture] raises, and where *)

Lemma never_bind {A B} e (m : M A) (k : A -> M B) :
  never_raises e m -> (forall a, never_raises e (k a)) ->
  never_raises e (bind m k).
Proof.
  intros Hm Hk. eapply hoare_bind; [exact Hm | |].
  - intros a it _. exact (Hk a it I).
  - intros e' it H [= ->]. by apply H.
Qed.

Lemma never_lift {A} e (r : result A) : r <> Raise e -> never_raises e (lift r).
Proof. by intros Hr it _. Qed.

Lemma never_modify e f : never_raises e (modify f).
Proof. by intros it _. Qed.

Lemma never_ret {A} e (a : A) : never_raises e (ret a).
Proof. by intros it _. Qed.

Lemma never_when e b (m : M unit) : never_raises e m -> never_raises e (when b m).
Proof. intros Hm. destruct b; [exact Hm | apply never_ret]. Qed.

Lemma never_for_each e l body :
  (forall i, never_raises e (body i)) -> never_raises e (for_each l body).
Proof.
  intros Hb. induction l as [|i l IH]; simpl.
  - apply never_ret.
  - apply never_bind; [apply Hb | intros _; exact IH].
Qed.

Lemma set_corner_not_missing i v : never_raises MissingData (set_corner i v).
Proof. intros it _. unfold outcome, set_corner. by destruct (decide _). Qed.

Lemma py_len_not_missing v : py_len v <> Raise MissingData.
Proof. by destruct v. Qed.

Lemma reduce_not_missing f v : reduce f v <> Raise MissingData.
Proof. by destruct v as [| | | | |[|]]. Qed.

Lemma mkPen_not_missing d : mkPen d <> Raise MissingData.
Proof. unfold mkPen. by destruct (pen_ok d). Qed.

Lemma getitem_not_missing v i : getitem v i <> Raise MissingData.
Proof.
  destruct v; simpl; try done.
  - by destruct (String.get i s).
  - by destruct (l !! i).
  - by destruct (l !! i).
Qed.

Lemma row_not_missing v i : row v i <> Raise MissingData.
Proof. unfold row. destruct (isscalar v); [done | apply getitem_not_missing]. Qed.

Lemma mkLine_not_missing a b c d : mkLine a b c d <> Raise MissingData.
Proof.
  unfold mkLine, rbind, as_float.
  destruct a, b, c, d; done.
Qed.

Lemma draw_row_not_missing pens x y0 y1 i :
  never_raises MissingData (draw_row pens x y0 y1 i).
Proof.
  unfold draw_row.
  repeat first
    [ apply never_bind; [|intros ?]
    | apply never_when
    | apply never_modify
    | apply never_lift;
      first [ apply getitem_not_missing | apply mkPen_not_missing
            | apply row_not_missing | apply mkLine_not_missing ] ].
Qed.

(** The exception of line 87 comes from nowhere but line 87. *)
Lemma render_not_missing pen pens x y0 y1 :
  never_raises MissingData (render pen pens x y0 y1).
Proof.
  unfold render, corners, sticks.
  repeat first
    [ apply never_bind; [|intros ?]
    | apply never_when
    | apply never_modify
    | apply set_corner_not_missing
    | apply never_for_each; intros ?; apply draw_row_not_missing
    | apply never_lift;
      first [ apply py_len_not_missing | apply reduce_not_missing
            | apply mkPen_not_missing ] ].
Qed.

Lemma np_half_not_missing v : np_half v <> Raise MissingData.
Proof. by destruct v. Qed.

Lemma np_binop_not_missing f v w : np_binop f v w <> Raise MissingData.
Proof.
  destruct v, w; simpl; try done.
  unfold broadcast. destruct (decide _); [done|].
  destruct l as [|? [|]], l0 as [|? [|]]; done.
Qed.

Lemma bounds_missing y y0 y1 height :
  bounds y y0 y1 height = Raise MissingData <->
  is_none height && is_none y0 && is_none y1 = true.
Proof.
  unfold bounds. destruct (is_none height) eqn:Hh; simpl.
  - rewrite !andb_false_r. destruct (is_none y0), (is_none y1); simpl; split; done.
  - rewrite andb_true_r. destruct (is_none y) eqn:Hy; simpl; [done|].
    split; [|done]. intros H. exfalso.
    destruct (np_half height) as [h|e] eqn:Hhalf; simpl in H.
    + destruct (np_sub y h) as [lo|e] eqn:Hsub; simpl in H.
      * destruct (np_add y h) as [up|e] eqn:Hadd; simpl in H; [done|].
        injection H as ->. by apply np_binop_not_missing in Hadd.
      * injection H as ->. by apply np_binop_not_missing in Hsub.
    + injection H as ->. by apply np_half_not_missing in Hhalf.
Qed.

Lemma is_none_asarray v : is_none (asarray v) = is_none v.
Proof. by destruct v. Qed.

Lemma render_unsized pen pens x y0 y1 it :
  py_len x = Raise (TypeError AtLen) ->
  render pen pens x y0 y1 it =
    (with_corners [0; 0; 0; 0]%Q it, Raise (TypeError AtLen)).
Proof. intros Hx. unfold render, corners, bind, lift, modify. simpl. by rewrite Hx. Qed.

(** C7, amended: the combination of data is not checked when the options
    are set, for [setOpts] and [setData] always return; it is checked in
    part, and late, by [drawPicture], which raises the exception of line 87
    exactly when [height], [y0] and [y1] are all [None]. *)
Theorem combination_checked_late_and_in_part it :
  (forall kw, outcome (setOpts kw) it = Ok tt) /\
  (forall kargs, outcome (setData kargs) it = Ok tt) /\
  (outcome drawPicture it = Raise MissingData ->
   is_none (opt it "height") && is_none (opt it "y0") && is_none (opt it "y1") = true) /\
  (is_Some (opts it !! "pen") -> is_Some (opts it !! "pens") ->
   is_none (opt it "height") && is_none (opt it "y0") && is_none (opt it "y1") = true ->
   outcome drawPicture it = Raise MissingData).
Proof.
  split; [done|]. split; [done|].
  pose proof (bounds_missing (asarray (opt it "y")) (asarray (opt it "y0"))
                (asarray (opt it "y1")) (asarray (opt it "height"))) as Hb.
  rewrite !is_none_asarray in Hb. fold (bounds_of it) in Hb.
  unfold outcome. rewrite drawPicture_eq. simpl. split.
  - destruct (opts it !! "pen") as [pen|]; [|done].
    destruct (opts it !! "pens") as [pens|]; [|done].
    destruct (bounds_of it) as [[y0 y1]|e].
    + intros H. by apply render_not_missing in H.
    + simpl. intros [= ->]. by apply Hb.
  - intros [pen ->] [pens ->] Hnone. apply Hb in Hnone. by rewrite Hnone.
Qed.

(** C10, amended: with [x] missing or a number, [drawPicture] raises before
    it draws anything: at [len(x)] whenever the bounds of lines 80-87 could
    be computed, and before that otherwise. *)
Theorem drawPicture_needs_sized_x it :
  is_none (opt it "x") || is_number (opt it "x") = true ->
  (exists e, outcome drawPicture it = Raise e) /\
  drawn (after drawPicture it) = [] /\
  (is_Some (opts it !! "pen") -> is_Some (opts it !! "pens") ->
   forall b, bounds_of it = Ok b ->
   outcome drawPicture it = Raise (TypeError AtLen)).
Proof.
  intros Hx.
  assert (py_len (asarray (opt it "x")) = Raise (TypeError AtLen)) as Hlen
    by (by destruct (opt it "x")).
  unfold outcome, after. rewrite drawPicture_eq. simpl.
  destruct (opts it !! "pen") as [pen|].
  2: { split; [by eexists|]. split; [done|]. by intros [? ?]. }
  destruct (opts it !! "pens") as [pens|].
  2: { split; [by eexists|]. split; [done|]. by intros _ [? ?]. }
  destruct (bounds_of it) as [[y0 y1]|e].
  - rewrite render_unsized by done. simpl.
    split; [by eexists|]. split; [done|]. done.
  - split; [by eexists|]. split; [done|]. done.
Qed.


(** ** The attribute [_shape] *)

Lemma paint_frame (I : item -> Prop) :
  (forall p it, I it -> I (with_picture p it)) ->
  (forall c it, I it -> I (with_corners c it)) ->
  (forall it, I it -> I (count_draw it)) ->
  keeps I paint.
Proof.
  intros Hp Hc Hd. unfold paint.
  apply keeps_bind; [apply keeps_get_self | intros self].
  apply keeps_bind; [by apply keeps_when, drawPicture_frame | intros _].
  apply keeps_bind; [apply keeps_get_self | intros self'].
  destruct (picture self'); [apply keeps_ret | apply keeps_raise].
Qed.

Lemma shape_frame (I : item -> Prop) :
  (forall p it, I it -> I (with_picture p it)) ->
  (forall c it, I it -> I (with_corners c it)) ->
  (forall it, I it -> I (count_draw it)) ->
  keeps I shape.
Proof.
  intros Hp Hc Hd. unfold shape.
  apply keeps_bind; [apply keeps_get_self | intros self].
  apply keeps_bind; [by apply keeps_when, drawPicture_frame | intros _].
  apply keeps_bind; [apply keeps_get_self | intros self'].
  destruct (_shape self'); [apply keeps_ret | apply keeps_raise].
Qed.

Lemma boundingRect_frame (I : item -> Prop) :
  (forall p it, I it -> I (with_picture p it)) ->
  (forall c it, I it -> I (with_corners c it)) ->
  (forall it, I it -> I (count_draw it)) ->
  keeps I boundingRect.
Proof.
  intros Hp Hc Hd. unfold boundingRect.
  apply keeps_bind; [apply keeps_get_self | intros self].
  apply keeps_bind; [by apply keeps_when, drawPicture_frame | intros _].
  repeat (apply keeps_bind; [apply keeps_corner | intros ?]).
  apply keeps_ret.
Qed.

(** No method creates the attribute [_shape]. *)
Lemma reachable_no_shape it : reachable it -> _shape it = None.
Proof.
  induction 1 as [kw|kw it _ IH|kargs it _ IH|it _ IH|it _ IH|it _ IH|it _ IH|it _ IH].
  - done.
  - done.
  - done.
  - by apply (drawPicture_frame (fun it => _shape it = None)).
  - by apply (paint_frame (fun it => _shape it = None)).
  - by apply (shape_frame (fun it => _shape it = None)).
  - done.
  - by apply (boundingRect_frame (fun it => _shape it = None)).
Qed.

(** C9, amended: on every reachable object [shape()] raises.  With an empty
    cache and a [drawPicture] that raises, it raises that exception;
    in every other case it raises the AttributeError of [self._shape], an
    attribute no method assigns. *)
Theorem shape_never_returns it :
  reachable it ->
  match picture it, outcome drawPicture it with
  | None, Raise e => outcome shape it = Raise e
  | _, _ => outcome shape it = Raise (AttributeError AtShape)
  end.
Proof.
  intros Hreach. pose proof (reachable_no_shape it Hreach) as Hshape.
  assert (_shape (after drawPicture it) = None) as Hshape'
    by (by apply (drawPicture_frame (fun it => _shape it = None))).
  assert (outcome shape it = snd (shape it)) as -> by done.
  unfold shape. rewrite lazy_run.
  destruct (picture it) as [p|].
  - unfold bind, get_self. by rewrite Hshape.
  - rewrite bind_run. destruct (outcome drawPicture it) as [u|e]; [|done].
    unfold bind, get_self. by rewrite Hshape'.
Qed.

(** ** The bounding corners *)

Lemma corners_run a xs y0 y1 it :
  corners (VArr (a :: xs)) y0 y1 it =
  let top := fold_left num_max xs a in
  match np_min y0 with
  | Raise e => (with_corners [top; 0; 0; 0]%Q it, Raise e)
  | Ok lo =>
      match np_max y1 with
      | Raise e => (with_corners [top; lo; 0; 0]%Q it, Raise e)
      | Ok up => (with_corners [top; lo; 0; up]%Q it, Ok tt)
      end
  end.
Proof.
  unfold corners, bind, lift, modify, when, set_corner, ret. simpl.
  destruct (np_min y0) as [lo|e]; simpl; [|done].
  by destruct (np_max y1) as [up|e].
Qed.

(** X15: when [drawPicture] returns on a non-empty [x], corner 0 holds the
    largest abscissa, corner 2 is still [0], and corners 1 and 3 hold the
    least lower bound and the greatest upper bound. *)
Lemma drawPicture_corners it a xs :
  asarray (opt it "x") = VArr (a :: xs) ->
  outcome drawPicture it = Ok tt ->
  exists y0 y1 lo up,
    bounds_of it = Ok (y0, y1) /\ np_min y0 = Ok lo /\ np_max y1 = Ok up /\
    boundingCorners (after drawPicture it) = [fold_left num_max xs a; lo; 0; up]%Q.
Proof.
  intros Hx. unfold outcome, after. rewrite drawPicture_eq. simpl.
  destruct (opts it !! "pen") as [pen|]; [|done].
  destruct (opts it !! "pens") as [pens|]; [|done].
  destruct (bounds_of it) as [[y0 y1]|e]; [|done].
  rewrite Hx. unfold render. rewrite bind_run.
  unfold outcome, after. rewrite !corners_run. simpl.
  destruct (np_min y0) as [lo|e] eqn:Hlo; [|done].
  destruct (np_max y1) as [up|e] eqn:Hup; [|done]. simpl.
  intros _. exists y0, y1, lo, up.
  split; [done|]. split; [done|]. split; [done|].
  set (c := [fold_left num_max xs a; lo; 0%Q; up]).
  by apply (keeps_sticks (fun it' => boundingCorners it' = c) _ _ _ _ _
              (fun p it' H => H)).
Qed.

(** X16: when [drawPicture] returns, it has drawn one segment for each row of
    [x], in the order of the rows. *)
Lemma drawPicture_draws_every_row it n :
  outcome drawPicture it = Ok tt ->
  py_len (asarray (opt it "x")) = Ok n ->
  length (drawn (after drawPicture it)) = n /\
  forall i, (i < n)%nat ->
    exists y0 y1 ln, bounds_of it = Ok (y0, y1) /\
      drawn (after drawPicture it) !! i = Some ln /\
      segment_at (asarray (opt it "x")) y0 y1 i = Ok ln.
Proof.
  intros Hok Hn. destruct (drawPicture_rows it) as [_ [j [Hrows Hlen]]].
  specialize (Hlen Hok). rewrite Hn in Hlen. injection Hlen as <-.
  pose proof (Forall2_length _ _ _ Hrows) as Hl. rewrite length_seq in Hl.
  split; [done|]. intros i Hi.
  destruct (Forall2_lookup_l _ _ _ i i Hrows) as [ln [Hln [y0 [y1 [Hb Hseg]]]]].
  { by apply lookup_seq. }
  by exists y0, y1, ln.
Qed.


(** ** What the methods keep *)

Lemma paint_cached it p : picture it = Some p -> paint it = (it, Ok p).
Proof.
  intros Hp. unfold paint. rewrite lazy_run, Hp.
  unfold bind, get_self. by rewrite Hp.
Qed.

Lemma boundingRect_cached it p a b c d :
  picture it = Some p -> boundingCorners it = [a; b; c; d] ->
  boundingRect it = (it, Ok (MkRect a b c d)).
Proof.
  intros Hp Hc. unfold boundingRect. rewrite lazy_run, Hp.
  unfold bind, corner, ret. by repeat (rewrite Hc; simpl).
Qed.

(** A method that draws when nothing is cached and then only reads leaves
    the item as it was, or as [drawPicture] leaves it. *)
Lemma lazy_after {A} (k : M A) it :
  (forall it', after k it' = it') ->
  after (let* self := get_self in
         when (bool_decide (picture self = None)) drawPicture ;; k) it =
  match picture it with
  | Some _ => it
  | None => after drawPicture it
  end.
Proof.
  intros Hk. unfold after at 1. rewrite lazy_run.
  destruct (picture it); [apply Hk|].
  rewrite bind_run. destruct (outcome drawPicture it); [apply Hk | done].
Qed.

Lemma shape_after it :
  after shape it =
  match picture it with Some _ => it | None => after drawPicture it end.
Proof.
  apply lazy_after. intros it'. unfold after, bind, get_self.
  by destruct (_shape it').
Qed.

Lemma boundingRect_after it :
  after boundingRect it =
  match picture it with Some _ => it | None => after drawPicture it end.
Proof.
  apply lazy_after. intros it'. unfold after, bind, corner, ret.
  by repeat destruct (boundingCorners _ !! _).
Qed.

Lemma paint_after it :
  after paint it =
  match picture it with Some _ => it | None => after drawPicture it end.
Proof.
  apply lazy_after. intros it'. unfold after, bind, get_self.
  by destruct (picture it').
Qed.

Lemma four_corners (l : list Q) :
  length l = 4%nat -> exists a b c d, l = [a; b; c; d].
Proof.
  destruct l as [|a [|b [|c [|d [|]]]]]; try done. intros _. by exists a, b, c, d.
Qed.

Lemma keeps_length_set_corner n i v :
  keeps (fun it => length (boundingCorners it) = n) (set_corner i v).
Proof.
  intros it Hit. unfold after, set_corner.
  destruct (decide _); simpl; [by rewrite length_insert | done].
Qed.

Lemma corners_length x y0 y1 :
  hoare (fun _ => True) (corners x y0 y1)
    (fun _ it => length (boundingCorners it) = 4%nat).
Proof.
  unfold corners. eapply hoare_bind with (Q' := fun _ it => length (boundingCorners it) = 4%nat).
  - by intros it _.
  - intros _. change (keeps (fun it => length (boundingCorners it) = 4%nat)
      (let* n := lift (py_len x)
       in when (0 <? n)%nat
            (let* m := lift (np_min x) in set_corner 0 m;;
             let* m0 := lift (np_max x) in set_corner 0 m0);;
          let* n0 := lift (py_len x)
          in when (0 <? n0)%nat
               (let* m := lift (np_min y0) in set_corner 1 m;;
                let* m0 := lift (np_max y1) in set_corner 3 m0))).
    repeat first
      [ apply keeps_bind; [|intros ?]
      | apply keeps_when
      | apply keeps_lift
      | apply keeps_length_set_corner ].
  - done.
Qed.

Lemma drawPicture_length it :
  length (boundingCorners it) = 4%nat ->
  length (boundingCorners (after drawPicture it)) = 4%nat.
Proof.
  intros Hlen. unfold after. rewrite drawPicture_eq. simpl.
  destruct (opts it !! "pen") as [pen|]; [|done].
  destruct (opts it !! "pens") as [pens|]; [|done].
  destruct (bounds_of it) as [[y0 y1]|e]; [|done].
  unfold render. rewrite bind_run.
  set (it0 := with_picture _ _).
  pose proof (corners_length (asarray (opt it "x")) y0 y1 it0 I) as Hc.
  destruct (outcome _ it0); [|done].
  by apply (keeps_sticks (fun it' => length (boundingCorners it') = 4%nat)).
Qed.

Lemma drawPicture_options it : opts (after drawPicture it) = opts it.
Proof. by apply (drawPicture_frame (fun it' => opts it' = opts it)). Qed.

(** Every reachable item has the eight option keys and four corners. *)
Lemma reachable_well_formed it : reachable it -> well_formed it.
Proof.
  induction 1 as [kw|kw it _ [IHc IHk]|kargs it _ [IHc IHk]|it _ [IHc IHk]
                 |it _ [IHc IHk]|it _ [IHc IHk]|it _ [IHc IHk]|it _ [IHc IHk]].
  - split; [done|]. unfold init. rewrite setOpts_run. simpl.
    repeat constructor; apply lookup_union_is_Some; right; by eexists.
  - split; [done|]. unfold after. rewrite setOpts_run. simpl.
    eapply Forall_impl; [exact IHk|]. intros k Hk.
    apply lookup_union_is_Some. by right.
  - split; [done|]. unfold setData, after. rewrite setOpts_run. simpl.
    eapply Forall_impl; [exact IHk|]. intros k Hk.
    apply lookup_union_is_Some. by right.
  - split; [by apply drawPicture_length|]. by rewrite drawPicture_options.
  - rewrite paint_after. destruct (picture it); [done|].
    split; [by apply drawPicture_length|]. by rewrite drawPicture_options.
  - rewrite shape_after. destruct (picture it); [done|].
    split; [by apply drawPicture_length|]. by rewrite drawPicture_options.
  - done.
  - rewrite boundingRect_after. destruct (picture it); [done|].
    split; [by apply drawPicture_length|]. by rewrite drawPicture_options.
Qed.

(** ** The exceptions of [render] *)




















(** ** Further properties of the methods *)

(** X1: drawing never touches the options: [drawPicture], [paint],
    [boundingRect], [shape] and [name] leave the dict as it was, whether
    they return or raise. *)
Theorem drawing_keeps_options it :
  opts (after drawPicture it) = opts it /\
  opts (after paint it) = opts it /\
  opts (after boundingRect it) = opts it /\
  opts (after shape it) = opts it /\
  opts (after name it) = opts it.
Proof.
  pose proof (drawPicture_options it) as Hd.
  rewrite paint_after, boundingRect_after, shape_after.
  by destruct (picture it).
Qed.

(** X2: every item a program can reach has the eight option keys of
    [__init__] and four bounding corners: no method removes a key or
    changes the number of corners. *)
Theorem reachable_keys_and_corners it :
  reachable it ->
  length (boundingCorners it) = 4%nat /\
  forall k, k ∈ option_keys -> is_Some (opts it !! k).
Proof.
  intros Hreach. destruct (reachable_well_formed it Hreach) as [Hc Hk].
  split; [exact Hc|]. by apply Forall_forall.
Qed.

Lemma well_formed_pen it :
  well_formed it ->
  opts it !! "pen" = Some (opt it "pen") /\ opts it !! "pens" = Some (opt it "pens").
Proof.
  intros [_ Hk]. rewrite Forall_forall in Hk. unfold opt.
  destruct (Hk "pen") as [v ->]; [set_solver|].
  destruct (Hk "pens") as [w ->]; [set_solver|]. done.
Qed.

Lemma drawPicture_well_formed it :
  well_formed it ->
  drawPicture it =
  let it0 := with_picture (Some (MkPicture [] false)) (count_draw it) in
  match bounds_of it with
  | Ok (y0, y1) =>
      render (first_pen it) (opt it "pens") (asarray (opt it "x")) y0 y1 it0
  | Raise e => (it0, Raise e)
  end.
Proof.
  intros Hwf. destruct (well_formed_pen it Hwf) as [Hpen Hpens].
  rewrite drawPicture_eq, Hpen, Hpens. done.
Qed.


(** X4: on a reachable item [boundingRect] raises only what [drawPicture]
    raises on an empty cache; in every other case it returns the rectangle
    made of the four corners, in their order. *)
Theorem boundingRect_returns_corners it :
  reachable it ->
  match picture it, outcome drawPicture it with
  | None, Raise e => outcome boundingRect it = Raise e
  | _, _ =>
      exists a b c d,
        boundingCorners (after boundingRect it) = [a; b; c; d] /\
        outcome boundingRect it = Ok (MkRect a b c d)
  end.
Proof.
  intros Hreach. destruct (reachable_well_formed it Hreach) as [Hlen _].
  pose proof (drawPicture_length it Hlen) as Hlen'.
  pose proof (proj1 (drawPicture_rows it)) as [p' Hp'].
  destruct (picture it) as [p|] eqn:Hp.
  - destruct (four_corners _ Hlen) as (a & b & c & d & Hc).
    assert (boundingRect it = (it, Ok (MkRect a b c d))) as Hrun
      by (by apply (boundingRect_cached it p)).
    unfold after, outcome. rewrite Hrun. simpl.
    destruct (snd (drawPicture it)); by exists a, b, c, d.
  - assert (boundingRect it =
            match outcome drawPicture it with
            | Ok _ => boundingRect (after drawPicture it)
            | Raise e => (after drawPicture it, Raise e)
            end) as Hrun.
    { unfold boundingRect at 1. rewrite lazy_run, Hp, bind_run.
      destruct (outcome drawPicture it) as [u|e]; [|done].
      destruct (four_corners _ Hlen') as (a & b & c & d & Hc).
      rewrite (boundingRect_cached _ p' a b c d Hp' Hc).
      unfold bind, corner, ret. by repeat (rewrite Hc; simpl). }
    unfold after at 1, outcome at 2 3. rewrite Hrun.
    destruct (outcome drawPicture it) as [u|e]; [|done].
    destruct (four_corners _ Hlen') as (a & b & c & d & Hc).
    rewrite (boundingRect_cached _ p' a b c d Hp' Hc). simpl.
    by exists a, b, c, d.
Qed.

(** X5: after any call of [paint], returned or raised, the cache holds a
    picture, and the next [paint] plays it without drawing again and
    without raising: an exception of [drawPicture] is seen once. *)
Theorem paint_after_paint it :
  exists p, picture (after paint it) = Some p /\
            paint (after paint it) = (after paint it, Ok p).
Proof.
  assert (is_Some (picture (after paint it))) as [p Hp].
  { rewrite paint_after. destruct (picture it) eqn:Hpic; [by rewrite Hpic|].
    apply drawPicture_rows. }
  exists p. split; [done|]. by apply paint_cached.
Qed.

(** ** Further properties of [drawPicture] *)

Lemma corners_empty x y0 y1 it :
  py_len x = Ok 0%nat ->
  corners x y0 y1 it = (with_corners [0; 0; 0; 0]%Q it, Ok tt).
Proof. intros Hx. unfold corners, bind, lift, modify, when. simpl. by rewrite Hx. Qed.

Lemma corners_need_reduction x y0 y1 it :
  (exists e, np_min y0 = Raise e) \/ (exists e, np_max y1 = Raise e) ->
  outcome (corners x y0 y1) it = Ok tt -> py_len x = Ok 0%nat.
Proof.
  intros Hred. unfold outcome, corners, bind, lift, modify, when, set_corner, ret.
  simpl. destruct (py_len x) as [[|n]|e]; simpl; [done | | done].
  destruct (np_min x) as [m|e]; simpl; [|done].
  destruct (np_max x) as [m'|e]; simpl; [|done].
  destruct (np_min y0) as [lo|e] eqn:Hlo; simpl; [|done].
  destruct (np_max y1) as [up|e] eqn:Hup; simpl; [|done].
  by destruct Hred as [[e H]|[e H]].
Qed.

Lemma sticks_empty pen pens x y0 y1 it p :
  py_len x = Ok 0%nat -> picture it = Some p ->
  sticks pen pens x y0 y1 it =
  match mkPen pen with
  | Ok pn => (with_picture (Some (MkPicture (commands p ++ [SetPen pn]) true)) it,
              Ok tt)
  | Raise e => (it, Raise e)
  end.
Proof.
  intros Hx Hp. unfold sticks, bind, lift, p_setPen, p_end, modify.
  destruct (mkPen pen) as [pn|e]; [|done]. simpl.
  by rewrite Hx, Hp.
Qed.

Lemma corners_picture x y0 y1 it :
  picture (after (corners x y0 y1) it) = picture it.
Proof. by apply (keeps_corners (fun it' => picture it' = picture it)). Qed.

(** Without a [min] on the lower bound or a [max] on the upper bound,
    [render] draws no segment, and it returns only on an empty [x]. *)
Lemma render_without_reduction pen pens x y0 y1 it :
  (exists e, np_min y0 = Raise e) \/ (exists e, np_max y1 = Raise e) ->
  picture it = Some (MkPicture [] false) ->
  drawn (after (render pen pens x y0 y1) it) = [] /\
  (outcome (render pen pens x y0 y1) it = Ok tt -> py_len x = Ok 0%nat).
Proof.
  intros Hred Hp. unfold after, outcome, render. rewrite bind_run.
  pose proof (corners_need_reduction x y0 y1 it Hred) as Hlen.
  pose proof (corners_picture x y0 y1 it) as Hpic. rewrite Hp in Hpic.
  destruct (outcome (corners x y0 y1) it) as [[]|e].
  - specialize (Hlen eq_refl).
    rewrite (sticks_empty _ _ _ _ _ _ _ Hlen Hpic).
    destruct (mkPen pen) as [pn|e]; simpl.
    + done.
    + unfold drawn. by rewrite Hpic.
  - simpl. unfold drawn. by rewrite Hpic.
Qed.

Lemma drawPicture_without_reduction it y0 y1 :
  bounds_of it = Ok (y0, y1) ->
  (exists e, np_min y0 = Raise e) \/ (exists e, np_max y1 = Raise e) ->
  drawn (after drawPicture it) = [] /\
  (outcome drawPicture it = Ok tt -> py_len (asarray (opt it "x")) = Ok 0%nat).
Proof.
  intros Hb Hred. unfold after, outcome. rewrite drawPicture_eq, Hb. simpl.
  destruct (opts it !! "pen") as [pen|]; [|done].
  destruct (opts it !! "pens") as [pens|]; [|done].
  by apply render_without_reduction.
Qed.

(** X6: when the lower bound has no [min] or the upper bound no [max] (a
    Python number, as the [0] of line 84, or an empty array), [drawPicture]
    draws no segment at all, and it returns only if [x] is empty. *)
Theorem bounds_without_reduction_draw_nothing it y0 y1 :
  bounds_of it = Ok (y0, y1) ->
  (exists e, np_min y0 = Raise e) \/ (exists e, np_max y1 = Raise e) ->
  drawn (after drawPicture it) = [] /\
  (outcome drawPicture it = Ok tt -> py_len (asarray (opt it "x")) = Ok 0%nat).
Proof. apply drawPicture_without_reduction. Qed.

Lemma drawPicture_without_bounds it e :
  bounds_of it = Raise e ->
  drawn (after drawPicture it) = [] /\ outcome drawPicture it <> Ok tt.
Proof.
  intros Hb. unfold after, outcome. rewrite drawPicture_eq, Hb. simpl.
  destruct (opts it !! "pen"); [|by split].
  destruct (opts it !! "pens"); by split.
Qed.

Lemma setData_opt kargs it :
  let it' := after (setData kargs) it in
  opt it' "x" = default VNone (kargs !! "x") /\
  opt it' "y" = VNone /\ opt it' "y0" = VNone /\ opt it' "y1" = VNone.
Proof.
  simpl. unfold opt, setData.
  repeat split;
    (erewrite setOpts_named; [reflexivity|]; simplify_map_eq; simpl;
     repeat case_match; done).
Qed.

(** X7: after [setData], whatever its arguments, [drawPicture] never draws
    a segment, and it returns only if the new [x] is empty: the data end
    up in [height] alone, and the lower bound is the [0] of line 84. *)
Theorem setData_then_draw_nothing kargs it :
  let it' := after (setData kargs) it in
  drawn (after drawPicture it') = [] /\
  (outcome drawPicture it' = Ok tt ->
   py_len (asarray (default VNone (kargs !! "x"))) = Ok 0%nat).
Proof.
  intros it'. destruct (setData_opt kargs it) as (Hx & Hy & Hy0 & Hy1).
  fold it' in Hx, Hy, Hy0, Hy1. rewrite <- Hx.
  assert (bounds_of it' = Raise MissingData \/
          exists h, bounds_of it' = Ok (VPy 0, h)) as [Hb|[h Hb]].
  { unfold bounds_of, bounds. rewrite Hy, Hy0, Hy1. simpl.
    destruct (is_none (asarray (opt it' "height"))); [by left | right; by eexists]. }
  - destruct (drawPicture_without_bounds it' _ Hb) as [Hd Hr]. by split.
  - apply (drawPicture_without_reduction it' (VPy 0) h Hb).
    left. by eexists.
Qed.

Lemma draw_row_arrays xs los ups i x lo up it p :
  xs !! i = Some x -> los !! i = Some lo -> ups !! i = Some up ->
  picture it = Some p ->
  draw_row VNone (VArr xs) (VArr los) (VArr ups) i it =
  (with_picture (Some (record (DrawLine (MkLine x lo x up)) p)) it, Ok tt).
Proof.
  intros Hx Hlo Hup Hp.
  unfold draw_row, when, bind, lift, ret, row, getitem, mkLine, p_drawLine, modify.
  simpl. rewrite Hx, Hlo, Hup. simpl. by rewrite Hp.
Qed.

Lemma loop_arrays xs' : forall los' ups' pre prel preu it p,
  length prel = length pre -> length preu = length pre ->
  length los' = length xs' -> length ups' = length xs' ->
  picture it = Some p ->
  for_each (seq (length pre) (length xs'))
    (draw_row VNone (VArr (pre ++ xs')) (VArr (prel ++ los')) (VArr (preu ++ ups'))) it =
  (with_picture
     (Some (MkPicture (commands p ++ (DrawLine <$> vertical_segments xs' los' ups'))
                      (ended p))) it,
   Ok tt).
Proof.
  induction xs' as [|x xs' IH]; intros los' ups' pre prel preu it p Hl Hu Hl' Hu' Hp.
  - simpl. unfold ret. rewrite app_nil_r. destruct it, p. simpl in *. by subst.
  - destruct los' as [|lo los']; [done|]. destruct ups' as [|up ups']; [done|].
    simpl in Hl', Hu'. cbn [length seq for_each]. rewrite bind_run.
    assert (draw_row VNone (VArr (pre ++ x :: xs')) (VArr (prel ++ lo :: los'))
              (VArr (preu ++ up :: ups')) (length pre) it =
            (with_picture (Some (record (DrawLine (MkLine x lo x up)) p)) it, Ok tt))
      as Hrow.
    { apply draw_row_arrays; [|rewrite <- Hl|rewrite <- Hu|done];
        by apply list_lookup_middle. }
    unfold outcome, after. rewrite Hrow. simpl.
    rewrite (cons_middle x pre xs'), (cons_middle lo prel los'),
      (cons_middle up preu ups'), !app_assoc.
    replace (S (length pre)) with (length (pre ++ [x]))
      by (rewrite length_app; simpl; lia).
    rewrite (IH los' ups' (pre ++ [x]) (prel ++ [lo]) (preu ++ [up]) _
               (record (DrawLine (MkLine x lo x up)) p)).
    + simpl. by rewrite <- app_assoc.
    + rewrite !length_app. simpl. lia.
    + rewrite !length_app. simpl. lia.
    + lia.
    + lia.
    + done.
Qed.

Lemma reduce_array f l : l <> [] -> exists m, reduce f (VArr l) = Ok m.
Proof. destruct l; [done|]. intros _. by eexists. Qed.

Lemma corners_arrays xs los ups it :
  length los = length xs -> length ups = length xs ->
  exists c, corners (VArr xs) (VArr los) (VArr ups) it = (with_corners c it, Ok tt).
Proof.
  intros Hl Hu. destruct xs as [|a xs].
  - eexists. by apply corners_empty.
  - rewrite corners_run.
    destruct (reduce_array num_min los) as [lo Hlo]; [by destruct los|].
    destruct (reduce_array num_max ups) as [up Hup]; [by destruct ups|].
    unfold np_min, np_max. rewrite Hlo, Hup. simpl. by eexists.
Qed.

(** X8: given one pen for all rows, an array [x] and, for the bounds,
    arrays of the length of [x], [drawPicture] returns, and the picture is
    the pen followed by the vertical segments of the rows, in order, closed
    by [p.end()]. *)
Theorem drawPicture_on_arrays it xs los ups :
  well_formed it ->
  opt it "pens" = VNone ->
  asarray (opt it "x") = VArr xs ->
  bounds_of it = Ok (VArr los, VArr ups) ->
  length los = length xs -> length ups = length xs ->
  pen_ok (first_pen it) = true ->
  outcome drawPicture it = Ok tt /\
  picture (after drawPicture it) =
    Some (MkPicture (SetPen (first_pen it) :: (DrawLine <$> vertical_segments xs los ups))
                    true).
Proof.
  intros Hwf Hpens Hx Hb Hl Hu Hpen. unfold outcome, after.
  rewrite (drawPicture_well_formed it Hwf), Hb, Hx, Hpens. simpl.
  set (it0 := with_picture _ _).
  unfold render. rewrite bind_run.
  destruct (corners_arrays xs los ups it0 Hl Hu) as [c Hc].
  unfold outcome, after. rewrite Hc. simpl.
  unfold sticks, mkPen. rewrite Hpen.
  unfold bind, lift, p_setPen, p_end, modify. simpl.
  rewrite (loop_arrays xs los ups [] [] [] _ (MkPicture [SetPen (first_pen it)] false));
    done.
Qed.

(** X9: on an empty [x] [drawPicture] returns whatever the bounds and the
    pens are, once the bounds are computed and the pen is accepted: it
    leaves four zero corners and a picture holding the pen alone. *)
Theorem drawPicture_on_empty_x it b :
  well_formed it ->
  py_len (asarray (opt it "x")) = Ok 0%nat ->
  bounds_of it = Ok b ->
  pen_ok (first_pen it) = true ->
  drawPicture it =
  (MkItem (opts it) [0; 0; 0; 0]%Q
          (Some (MkPicture [SetPen (first_pen it)] true)) (_shape it) (S (draws it)),
   Ok tt).
Proof.
  intros Hwf Hx Hb Hpen. destruct b as [y0 y1].
  rewrite (drawPicture_well_formed it Hwf), Hb. simpl.
  unfold render. rewrite bind_run.
  unfold outcome, after. rewrite (corners_empty _ _ _ _ Hx). simpl.
  erewrite sticks_empty; [|exact Hx|done].
  unfold mkPen. by rewrite Hpen.
Qed.

Lemma draw_row_penned ps xs los ups i d x lo up it p :
  ps !! i = Some d -> pen_ok (VPy d) = true ->
  xs !! i = Some x -> los !! i = Some lo -> ups !! i = Some up ->
  picture it = Some p ->
  draw_row (VList ps) (VArr xs) (VArr los) (VArr ups) i it =
  (with_picture
     (Some (record (DrawLine (MkLine x lo x up)) (record (SetPen (VPy d)) p))) it,
   Ok tt).
Proof.
  intros Hd Hok Hx Hlo Hup Hp.
  unfold draw_row, when, bind, lift, ret, row, getitem, mkLine, mkPen,
    p_setPen, p_drawLine, modify.
  simpl. rewrite Hd. simpl. rewrite Hok. simpl.
  rewrite Hx, Hlo, Hup. simpl. by rewrite Hp.
Qed.

Lemma draw_row_no_pen ps x y0 y1 i it :
  ps !! i = None ->
  draw_row (VList ps) x y0 y1 i it = (it, Raise (IndexError AtIndex)).
Proof.
  intros Hd. unfold draw_row, when, bind, lift, getitem. simpl. by rewrite Hd.
Qed.

Lemma loop_penned xs' : forall ps' los' ups' prep pre prel preu it p,
  length prep = length pre -> length prel = length pre -> length preu = length pre ->
  length los' = length xs' -> length ups' = length xs' ->
  Forall (fun d => pen_ok (VPy d) = true) ps' ->
  picture it = Some p ->
  for_each (seq (length pre) (length xs'))
    (draw_row (VList (prep ++ ps')) (VArr (pre ++ xs'))
              (VArr (prel ++ los')) (VArr (preu ++ ups'))) it =
  (with_picture
     (Some (MkPicture (commands p ++ penned_segments ps' xs' los' ups') (ended p))) it,
   if decide (length xs' <= length ps')%nat then Ok tt
   else Raise (IndexError AtIndex)).
Proof.
  induction xs' as [|x xs' IH];
    intros ps' los' ups' prep pre prel preu it p Hp' Hl Hu Hl' Hu' Hok Hp.
  - simpl. unfold ret. destruct ps'; simpl; rewrite app_nil_r;
      destruct it, p; simpl in *; by subst.
  - destruct los' as [|lo los']; [done|]. destruct ups' as [|up ups']; [done|].
    simpl in Hl', Hu'. cbn [length seq for_each]. rewrite bind_run.
    destruct ps' as [|d ps'].
    + rewrite app_nil_r. unfold outcome, after.
      rewrite draw_row_no_pen by (apply lookup_ge_None; lia). simpl.
      rewrite app_nil_r. destruct it, p. simpl in *. by subst.
    + apply Forall_cons in Hok as [Hd Hok].
      assert (draw_row (VList (prep ++ d :: ps')) (VArr (pre ++ x :: xs'))
                (VArr (prel ++ lo :: los')) (VArr (preu ++ up :: ups'))
                (length pre) it =
              (with_picture
                 (Some (record (DrawLine (MkLine x lo x up))
                          (record (SetPen (VPy d)) p))) it, Ok tt)) as Hrow.
      { apply draw_row_penned; [rewrite <- Hp'|done| |rewrite <- Hl|rewrite <- Hu|done];
          by apply list_lookup_middle. }
      unfold outcome, after. rewrite Hrow. simpl.
      rewrite (cons_middle d prep ps'), (cons_middle x pre xs'),
        (cons_middle lo prel los'), (cons_middle up preu ups'), !app_assoc.
      replace (S (length pre)) with (length (pre ++ [x]))
        by (rewrite length_app; simpl; lia).
      rewrite (IH ps' los' ups' (prep ++ [d]) (pre ++ [x]) (prel ++ [lo])
                 (preu ++ [up]) _
                 (record (DrawLine (MkLine x lo x up)) (record (SetPen (VPy d)) p)));
        try (rewrite !length_app; simpl; lia); try done; try lia.
      simpl. rewrite <- !app_assoc. simpl.
      f_equal. destruct (decide (length xs' <= length ps')%nat),
        (decide (S (length xs') <= S (length ps'))%nat); try done; lia.
Qed.

(** X10: with a list [pens] of accepted pens and arrays for [x] and the
    bounds, [drawPicture] records, after the first pen, the pen and the
    segment of each row for as many rows as there are pens; it returns when
    there is a pen for every row and otherwise raises the IndexError of
    [pens[i]], leaving the picture unfinished. *)
Theorem drawPicture_with_pens it ps xs los ups :
  well_formed it ->
  opt it "pens" = VList ps ->
  Forall (fun d => pen_ok (VPy d) = true) ps ->
  asarray (opt it "x") = VArr xs ->
  bounds_of it = Ok (VArr los, VArr ups) ->
  length los = length xs -> length ups = length xs ->
  pen_ok (first_pen it) = true ->
  outcome drawPicture it =
    (if decide (length xs <= length ps)%nat then Ok tt
     else Raise (IndexError AtIndex)) /\
  picture (after drawPicture it) =
    Some (MkPicture (SetPen (first_pen it) :: penned_segments ps xs los ups)
                    (bool_decide (length xs <= length ps)%nat)).
Proof.
  intros Hwf Hpens Hok Hx Hb Hl Hu Hpen. unfold outcome, after.
  rewrite (drawPicture_well_formed it Hwf), Hb, Hx, Hpens. simpl.
  set (it0 := with_picture _ _).
  unfold render. rewrite bind_run.
  destruct (corners_arrays xs los ups it0 Hl Hu) as [c Hc].
  unfold outcome, after. rewrite Hc. simpl.
  unfold sticks, mkPen. rewrite Hpen.
  unfold bind, lift, p_setPen, p_end, modify. simpl.
  rewrite (loop_penned xs ps los ups [] [] [] [] _
             (MkPicture [SetPen (first_pen it)] false)); try done.
  destruct (decide (length xs <= length ps)%nat) as [Hle|Hgt]; simpl.
  - by rewrite bool_decide_eq_true_2.
  - by rewrite bool_decide_eq_false_2.
Qed.

(** ** Further properties of the options *)

(** X11: two calls of [setOpts] in a row amount to one call with the two
    dicts merged, the later one winning on the keys they share. *)
Theorem setOpts_twice kw1 kw2 it :
  after (setOpts kw2) (after (setOpts kw1) it) = after (setOpts (kw2 ∪ kw1)) it.
Proof.
  unfold after. rewrite !setOpts_run. simpl. unfold with_picture, with_opts. simpl.
  by rewrite (assoc_L (∪)).
Qed.

Lemma setData_run kargs it : setData kargs it = setOpts (new_options kargs) it.
Proof.
  unfold setData, new_options. simpl.
  by repeat case_match.
Qed.

Lemma new_options_dom kargs1 kargs2 :
  dom (new_options kargs1) = dom (new_options kargs2).
Proof. unfold new_options. simpl. by rewrite !dom_insert_L. Qed.

(** X12: [setData] forgets what an earlier [setData] stored: two calls in a
    row leave the item as the second call alone does. *)
Theorem setData_twice kargs1 kargs2 it :
  after (setData kargs2) (after (setData kargs1) it) = after (setData kargs2) it.
Proof.
  unfold after. rewrite !setData_run, !setOpts_run. simpl.
  unfold with_picture, with_opts. simpl. f_equal.
  apply map_eq. intros k. rewrite !lookup_union.
  destruct (new_options kargs2 !! k) as [w|] eqn:Hw.
  - by rewrite !union_Some_l.
  - assert (new_options kargs1 !! k = None) as ->.
    { apply not_elem_of_dom. rewrite (new_options_dom kargs1 kargs2).
      by apply not_elem_of_dom. }
    by rewrite !(left_id_L None (∪)).
Qed.

(** X13: a new item holds, under every key, the value given to [__init__]
    and [None] for what was not given. *)
Theorem init_options kw (k : string) :
  opt (fst (init kw)) k = default VNone (kw !! k).
Proof.
  unfold init, opt. rewrite setOpts_run. simpl. rewrite lookup_union.
  destruct (kw !! k) as [v|]; [by rewrite union_Some_l|].
  rewrite (left_id_L None (∪)). unfold fresh. simpl.
  repeat (rewrite lookup_insert; case_decide; [done|]).
  by rewrite lookup_empty.
Qed.

(** X14: [name()] never raises; it returns the name the last [setOpts]
    gave, [None] once [setData] has been called, and painting or asking
    for the bounds does not change what it returns. *)
Theorem name_follows_the_options it :
  (forall kw v, kw !! "name" = Some v ->
     outcome name (after (setOpts kw) it) = Ok v) /\
  (forall kw, kw !! "name" = None ->
     outcome name (after (setOpts kw) it) = outcome name it) /\
  (forall kargs, outcome name (after (setData kargs) it) = Ok VNone) /\
  outcome name (after paint it) = outcome name it /\
  outcome name (after boundingRect it) = outcome name it.
Proof.
  assert (forall it', outcome name it' = Ok (opt it' "name")) as Hname by done.
  rewrite !Hname. unfold opt. repeat split.
  - intros kw v Hv. rewrite Hname. unfold opt. by erewrite setOpts_named.
  - intros kw Hv. rewrite !Hname. unfold opt, after. rewrite setOpts_run. simpl.
    by rewrite lookup_union_r.
  - intros kargs. rewrite Hname. unfold opt, after.
    rewrite setData_run, setOpts_run. simpl.
    erewrite lookup_union_Some_l; [done|]. unfold new_options. by simplify_map_eq.
  - rewrite paint_after. destruct (picture it); [done|].
    by rewrite drawPicture_options.
  - rewrite boundingRect_after. destruct (picture it); [done|].
    by rewrite drawPicture_options.
Qed.

End StickPlotItem.

(** ** The code on concrete objects

    The objects are built by [__init__] from the keyword arguments named in
    each statement; the foreground is the package default and [fn.mkPen]
    accepts every descriptor. *)

(** C1: for two sticks at [x = 1, 2] with lower bounds [0, 0] and upper
    bounds [3, 4], [drawPicture] returns with the corners [2, 0, 0, 4]:
    corner 0 holds the largest abscissa, not the least, and corner 2 is
    still [0].  The four scalars min-x, min-y, max-x, max-y would be
    [1, 0, 2, 4]. *)
Theorem corners_of_two_sticks :
  let it := fst (init two_sticks) in
  let it' := after (drawPicture default_foreground any_pen) it in
  outcome (drawPicture default_foreground any_pen) it = Ok tt /\
  np_min (asarray (opt it "x")) = Ok 1%Q /\
  np_max (asarray (opt it "x")) = Ok 2%Q /\
  boundingCorners it' = [2; 0; 0; 4]%Q /\
  boundingCorners it' <> [1; 0; 2; 4]%Q.
Proof. vm_compute. repeat split; discriminate. Qed.

(** C4: on the example of the class docstring, [x=range(5)] with
    [height=[1,5,2,4,3]], [drawPicture] draws no segment at all: the lower
    bound is the Python integer [0], which has no method [min], and line 94
    raises an AttributeError before the loop is reached. *)
Theorem docstring_example_draws_nothing :
  let it := fst (init docstring_example) in
  py_len (asarray (opt it "x")) = Ok 5%nat /\
  bounds_of it = Ok (VPy 0, VArr [1; 5; 2; 4; 3]%Q) /\
  outcome (drawPicture default_foreground any_pen) it = Raise (AttributeError AtMinMax) /\
  drawn (after (drawPicture default_foreground any_pen) it) = [].
Proof. vm_compute. repeat split. Qed.

(** C7 as stated fails: the object built by [__init__] without arguments
    violates the combination, and [paint] and [boundingRect] raise the
    exception of line 87 on it. *)
Lemma combination_is_checked_on_fresh_item :
  let it := fst (init ∅) in
  combination_ok it = false /\
  outcome (paint default_foreground any_pen) it = Raise MissingData /\
  outcome (boundingRect default_foreground any_pen) it = Raise MissingData.
Proof. vm_compute. repeat split. Qed.

(** C9 as stated fails: on the object built by [__init__] without arguments
    [shape()] raises the exception of line 87, which is no AttributeError. *)
Lemma shape_of_fresh_item_raises_missing_data :
  reachable default_foreground any_pen (fst (init ∅)) /\
  outcome (shape default_foreground any_pen) (fst (init ∅)) = Raise MissingData /\
  forall s, outcome (shape default_foreground any_pen) (fst (init ∅))
            <> Raise (AttributeError s).
Proof.
  split; [apply reach_init|].
  assert (outcome (shape default_foreground any_pen) (fst (init ∅))
          = Raise MissingData) as -> by (vm_compute; reflexivity).
  split; [done | discriminate].
Qed.

(** C10 as stated fails: on the object built by [__init__] without
    arguments [x] is [None], and [drawPicture] raises at line 87, before it
    reaches [len(x)]. *)
Lemma missing_x_raises_before_len :
  let it := fst (init ∅) in
  is_none (opt it "x") = true /\
  outcome (drawPicture default_foreground any_pen) it = Raise MissingData /\
  outcome (drawPicture default_foreground any_pen) it <> Raise (TypeError AtLen).
Proof. vm_compute. repeat split. discriminate. Qed.

(** ** Instances of the theorems that have hypotheses *)

(** [setOpts] with the two sticks leaves the option [pen] alone. *)
Lemma setOpts_frame_witness :
  two_sticks !! "pen" = None /\
  opts (fst (init two_sticks)) !! "pen" = opts fresh !! "pen".
Proof.
  split; [reflexivity|]. apply (setOpts_frame two_sticks fresh "pen"). reflexivity.
Defined.

(** A new item has an empty cache, and its first [paint] draws the picture. *)
Lemma cache_invalidated_and_rebuilt_lazily_witness :
  picture (fst (init two_sticks)) = None /\
  after (paint default_foreground any_pen) (fst (init two_sticks)) =
  after (drawPicture default_foreground any_pen) (fst (init two_sticks)) /\
  is_Some (picture (after (paint default_foreground any_pen)
                      (fst (init two_sticks)))).
Proof.
  destruct (cache_invalidated_and_rebuilt_lazily default_foreground any_pen)
    as [Hset [_ [_ [Hpaint _]]]].
  split; [apply Hset|]. apply Hpaint. apply Hset.
Defined.

(** The second of the two centred sticks runs from 5/2 to 15/2 at [x = 1]. *)
Lemma drawn_segment_vertical_witness :
  let it := fst (init two_centred_sticks) in
  drawn (after (drawPicture default_foreground any_pen) it) !! 1%nat =
    Some (MkLine 1 (5 # 2) 1 (15 # 2)) /\
  lx1 (MkLine 1 (5 # 2) 1 (15 # 2)) = lx2 (MkLine 1 (5 # 2) 1 (15 # 2)).
Proof.
  intros it. split; [vm_compute; reflexivity|].
  refine (proj1 (drawn_segment_vertical default_foreground any_pen it 1%nat
                   (MkLine 1 (5 # 2) 1 (15 # 2)) _)).
  vm_compute. reflexivity.
Defined.


(** An item built without data: [drawPicture] raises the exception of line 87. *)
Lemma combination_checked_late_and_in_part_witness :
  let it := fst (init ∅) in
  is_none (opt it "height") && is_none (opt it "y0") && is_none (opt it "y1") = true /\
  outcome (drawPicture default_foreground any_pen) it = Raise MissingData.
Proof.
  simpl. split; [reflexivity|].
  apply (combination_checked_late_and_in_part default_foreground any_pen
           (fst (init ∅))).
  - exists VNone. reflexivity.
  - exists VNone. reflexivity.
  - reflexivity.
Defined.

(** On the two sticks [drawPicture] returns, and [shape] fails on [_shape]. *)
Lemma shape_never_returns_witness :
  let it := fst (init two_sticks) in
  reachable default_foreground any_pen it /\
  outcome (shape default_foreground any_pen) it = Raise (AttributeError AtShape).
Proof.
  simpl. split; [apply reach_init|].
  apply (shape_never_returns default_foreground any_pen
           (fst (init two_sticks)) (reach_init _ _ two_sticks)).
Defined.

(** With [x=1, height=1] the bounds are computed and [len(x)] raises. *)
Lemma drawPicture_needs_sized_x_witness :
  let it := fst (init (kwargs [("x", VPy 1); ("height", VPy 1)])) in
  is_none (opt it "x") || is_number (opt it "x") = true /\
  bounds_of it = Ok (VPy 0, VPy 1) /\
  outcome (drawPicture default_foreground any_pen) it = Raise (TypeError AtLen).
Proof.
  simpl. split; [reflexivity|]. split; [reflexivity|].
  apply (drawPicture_needs_sized_x default_foreground any_pen
           (fst (init (kwargs [("x", VPy 1); ("height", VPy 1)])))
           eq_refl) with (b := (VPy 0, VPy 1)).
  - exists VNone. reflexivity.
  - exists VNone. reflexivity.
  - reflexivity.
Defined.

(** ** Instances of the further properties that have hypotheses *)

(** The item of the two sticks is reachable: eight keys and four corners. *)
Lemma reachable_keys_and_corners_witness :
  reachable default_foreground any_pen (fst (init two_sticks)) /\
  length (boundingCorners (fst (init two_sticks))) = 4%nat /\
  is_Some (opts (fst (init two_sticks)) !! "pens").
Proof.
  split; [apply reach_init|].
  destruct (reachable_keys_and_corners default_foreground any_pen
              (fst (init two_sticks)) (reach_init _ _ two_sticks)) as [Hc Hk].
  split; [exact Hc|]. apply Hk. unfold option_keys. set_solver.
Defined.


(** On the two sticks [boundingRect] returns the rectangle of the corners. *)
Lemma boundingRect_returns_corners_witness :
  reachable default_foreground any_pen (fst (init two_sticks)) /\
  exists a b c d,
    boundingCorners (after (boundingRect default_foreground any_pen)
                       (fst (init two_sticks))) = [a; b; c; d] /\
    outcome (boundingRect default_foreground any_pen) (fst (init two_sticks)) =
      Ok (MkRect a b c d).
Proof.
  split; [apply reach_init|].
  exact (boundingRect_returns_corners default_foreground any_pen
           (fst (init two_sticks)) (reach_init _ _ two_sticks)).
Defined.

(** The docstring example has the Python number [0] for lower bound. *)
Lemma bounds_without_reduction_draw_nothing_witness :
  bounds_of (fst (init docstring_example)) = Ok (VPy 0, VArr [1; 5; 2; 4; 3]%Q) /\
  np_min (VPy 0) = Raise (AttributeError AtMinMax) /\
  drawn (after (drawPicture default_foreground any_pen)
           (fst (init docstring_example))) = [].
Proof.
  split; [reflexivity|]. split; [reflexivity|].
  apply (bounds_without_reduction_draw_nothing default_foreground any_pen
           (fst (init docstring_example)) (VPy 0) (VArr [1; 5; 2; 4; 3]%Q)).
  - reflexivity.
  - left. exists (AttributeError AtMinMax). reflexivity.
Defined.

(** The picture of the two sticks. *)
Lemma drawPicture_on_arrays_witness :
  outcome (drawPicture default_foreground any_pen) (fst (init two_sticks)) = Ok tt /\
  picture (after (drawPicture default_foreground any_pen) (fst (init two_sticks))) =
    Some (MkPicture [SetPen (VStr "d"); DrawLine (MkLine 1 0 1 3);
                     DrawLine (MkLine 2 0 2 4)] true).
Proof.
  apply (drawPicture_on_arrays default_foreground any_pen (fst (init two_sticks))
           [1; 2]%Q [0; 0]%Q [3; 4]%Q); try reflexivity.
  apply (reachable_well_formed default_foreground any_pen), reach_init.
Defined.

(** An item without sticks is drawn as a pen and nothing else. *)
Lemma drawPicture_on_empty_x_witness :
  py_len (asarray (opt (fst (init no_sticks)) "x")) = Ok 0%nat /\
  bounds_of (fst (init no_sticks)) = Ok (VPy 0, VArr []) /\
  outcome (drawPicture default_foreground any_pen) (fst (init no_sticks)) = Ok tt.
Proof.
  split; [reflexivity|]. split; [reflexivity|].
  unfold outcome.
  rewrite (drawPicture_on_empty_x default_foreground any_pen (fst (init no_sticks))
             (VPy 0, VArr [])); try reflexivity.
  apply (reachable_well_formed default_foreground any_pen), reach_init.
Defined.

(** Two sticks and one pen: the first stick is drawn, then [pens[1]] fails. *)
Lemma drawPicture_with_pens_witness :
  outcome (drawPicture default_foreground any_pen) (fst (init two_sticks_one_pen)) =
    Raise (IndexError AtIndex) /\
  picture (after (drawPicture default_foreground any_pen)
             (fst (init two_sticks_one_pen))) =
    Some (MkPicture [SetPen VNone; SetPen (VPy 7); DrawLine (MkLine 1 0 1 3)] false).
Proof.
  apply (drawPicture_with_pens default_foreground any_pen
           (fst (init two_sticks_one_pen)) [7]%Q [1; 2]%Q [0; 0]%Q [3; 4]%Q);
    try reflexivity.
  - apply (reachable_well_formed default_foreground any_pen), reach_init.
  - repeat constructor.
Defined.

(** A name given to [__init__] is what [name()] returns. *)
Lemma name_follows_the_options_witness :
  named !! "name" = Some (VStr "spectrum") /\
  outcome name (fst (init named)) = Ok (VStr "spectrum").
Proof.
  split; [reflexivity|].
  apply (proj1 (name_follows_the_options default_foreground any_pen fresh)
           named (VStr "spectrum")).
  reflexivity.
Defined.

(** The corners of the two sticks. *)
Lemma drawPicture_corners_witness :
  asarray (opt (fst (init two_sticks)) "x") = VArr [1; 2]%Q /\
  exists y0 y1 lo up,
    bounds_of (fst (init two_sticks)) = Ok (y0, y1) /\
    np_min y0 = Ok lo /\ np_max y1 = Ok up /\
    boundingCorners (after (drawPicture default_foreground any_pen)
                       (fst (init two_sticks))) =
      [fold_left num_max [2%Q] 1%Q; lo; 0%Q; up].
Proof.
  split; [reflexivity|].
  apply (drawPicture_corners default_foreground any_pen (fst (init two_sticks))
           1%Q [2%Q]).
  - reflexivity.
  - vm_compute. reflexivity.
Defined.

(** The two sticks are drawn, one segment each. *)
Lemma drawPicture_draws_every_row_witness :
  py_len (asarray (opt (fst (init two_sticks)) "x")) = Ok 2%nat /\
  length (drawn (after (drawPicture default_foreground any_pen)
                   (fst (init two_sticks)))) = 2%nat.
Proof.
  split; [reflexivity|].
  apply (drawPicture_draws_every_row default_foreground any_pen
           (fst (init two_sticks)) 2%nat).
  - vm_compute. reflexivity.
  - reflexivity.
Defined.
